(** * kerastuner.engine.cloudservice: the cloud reporting client

    A shallow embedding of [kerastuner/engine/cloudservice.py] and the
    properties of its reporting subsystem.

    Conventions of the embedding:
    - Python objects live in a heap of cells addressed by index; a [dict] and
      a [list] hold references, so copying and in-place deletion are
      distinguishable from sharing.
    - a function that can raise returns a [result]; effects on the terminal
      and on the network are recorded as a trace of [event]s.
    - [time.time()] is an input of [send_status]; timestamps are exact
      rationals (rounding of the float clock is not part of the model).
    - [requests.post] is a capability of the environment: a section variable
      mapping a request to a response or to an exception.
    - [fuel] arguments stand for the recursion depth the interpreter allows
      to [copy.deepcopy] and to the JSON encoder.
    - [summary], which only formats and prints, is not part of the model. *)

From Stdlib Require Import Ascii String QArith.
From stdpp Require Import base tactics option list strings.

Set Warnings "-register-all".

Local Open Scope string_scope.
Local Open Scope list_scope.

(** ** Strings: [str.rstrip] and [str.join] *)

Module PyStr.

(** [c in chars] for a character and a string used as a character set. *)
Fixpoint mem (c : ascii) (chars : string) : bool :=
  match chars with
  | EmptyString => false
  | String a rest => if Ascii.eqb a c then true else mem c rest
  end.

(** [s.rstrip(chars)]: drop every trailing character that is in [chars]. *)
Fixpoint rstrip (chars : string) (s : string) : string :=
  match s with
  | EmptyString => EmptyString
  | String a rest =>
      match rstrip chars rest with
      | EmptyString => if mem a chars then EmptyString else String a EmptyString
      | kept => String a kept
      end
  end.

(** [sep.join(parts)]. *)
Fixpoint join (sep : string) (parts : list string) : string :=
  match parts with
  | [] => EmptyString
  | [p] => p
  | p :: rest => p +:+ sep +:+ join sep rest
  end.

(** [needle in s] for two strings: substring test. *)
Fixpoint is_prefix (p s : string) : bool :=
  match p, s with
  | EmptyString, _ => true
  | String a p', String b s' => Ascii.eqb a b && is_prefix p' s'
  | String _ _, EmptyString => false
  end.

Fixpoint contains (needle s : string) : bool :=
  is_prefix needle s ||
  match s with
  | EmptyString => false
  | String _ s' => contains needle s'
  end.

End PyStr.

(** [CloudService._url_join(self, *parts)]:
    ["/".join(map(lambda fragment: fragment.rstrip('/'), parts))]. *)
Definition _url_join (parts : list string) : string :=
  PyStr.join "/" (map (fun fragment => PyStr.rstrip "/" fragment) parts).

(** ** Python values and the object heap *)

(** Immutable values. Numbers ([int] and [float]) are exact rationals. *)
Inductive atom : Type :=
| ANone
| ABool (b : bool)
| ANum (q : Q)
| AStr (s : string).

(** A value read as a tree, as it is written to or parsed from JSON. *)
Inductive pyval : Type :=
| VAtom (a : atom)
| VList (items : list pyval)
| VDict (items : list (string * pyval)).

Definition loc := nat.

(** A heap cell. Containers hold references; a [dict] keeps its items in
    insertion order and its keys are strings. *)
Inductive obj : Type :=
| OAtom (a : atom)
| OList (items : list loc)
| ODict (items : list (string * loc)).

Abbreviation heap := (list obj).

(** A payload handed to the client: an object graph and its root. *)
Definition payload : Type := heap * loc.

(** Exceptions. [SystemError] stands for a dangling reference, which no
    Python program can build; [OtherError] is any exception class the module
    neither raises nor catches itself (those of the transport). *)
Inductive exn : Type :=
| KeyError (key : string)
| TypeError
| RecursionError
| SystemError
| JSONDecodeError
| OtherError (name : string).

Inductive result (A : Type) : Type :=
| Ret (a : A)
| Raise (e : exn).
Arguments Ret {A} a.
Arguments Raise {A} e.

(** ** The transport and the trace of effects *)

Record request : Type := {
  req_url : string;
  req_headers : list (string * option string);
  req_json : option pyval
}.

(** [requests.Response], as far as the module reads it: [response.ok],
    the outcome of [response.json()] and [response.text]. *)
Record response : Type := {
  ok : bool;
  json : result pyval;
  text : string
}.

Inductive event : Type :=
| EPost (r : request)
| EInfo (msg : string)
| EWarning (msg : string).

Definition is_post (ev : event) : bool :=
  match ev with EPost _ => true | _ => false end.

(** ** A state, exception and trace monad

    A computation runs on a state, returns or raises, leaves a state behind
    in both cases (Python mutates in place) and emits events. *)

Definition M (St A : Type) : Type := St -> result A * St * list event.

Definition ret {St A} (a : A) : M St A := fun s => (Ret a, s, []).

Definition raise {St A} (e : exn) : M St A := fun s => (Raise e, s, []).

Definition bind {St A B} (m : M St A) (k : A -> M St B) : M St B :=
  fun s =>
    match m s with
    | (Ret a, s1, t1) => let '(r, s2, t2) := k a s1 in (r, s2, t1 ++ t2)
    | (Raise e, s1, t1) => (Raise e, s1, t1)
    end.

Definition get {St} : M St St := fun s => (Ret s, s, []).
Definition modify {St} (f : St -> St) : M St unit := fun s => (Ret tt, f s, []).
Definition emit {St} (ev : event) : M St unit := fun s => (Ret tt, s, [ev]).
Definition lift_result {St A} (r : result A) : M St A := fun s => (r, s, []).

Declare Scope py_scope.
Delimit Scope py_scope with py.
Notation "x <- m ;; k" := (bind m (fun x => k))
  (at level 100, m at next level, right associativity) : py_scope.
Notation "m ;; k" := (bind m (fun _ => k))
  (at level 100, right associativity) : py_scope.
Local Open Scope py_scope.

Fixpoint mapM {St A B} (f : A -> M St B) (l : list A) : M St (list B) :=
  match l with
  | [] => ret []
  | a :: l' => b <- f a ;; bs <- mapM f l' ;; ret (b :: bs)
  end.

(** [for x in l: body x]. *)
Fixpoint for_each {St A} (l : list A) (body : A -> M St unit) : M St unit :=
  match l with
  | [] => ret tt
  | a :: l' => body a ;; for_each l' body
  end.

(** *** Statements with [return]

    A statement either falls through with a value or returns from the
    enclosing function. [def] closes a function body. *)

Inductive flow (R A : Type) : Type :=
| Return (v : R)
| Next (a : A).
Arguments Return {R A} v.
Arguments Next {R A} a.

Definition stmt (St R A : Type) : Type := M St (flow R A).

Definition return_ {St R A} (v : R) : stmt St R A := ret (Return v).
Definition run {St R A} (m : M St A) : stmt St R A := a <- m ;; ret (Next a).
Definition pass {St R} : stmt St R unit := ret (Next tt).

Definition then_ {St R A B} (s : stmt St R A) (k : A -> stmt St R B) : stmt St R B :=
  r <- s ;;
  match r with
  | Return v => ret (Return v)
  | Next a => k a
  end.

Definition def {St R} (body : stmt St R R) : M St R :=
  r <- body ;;
  match r with
  | Return v => ret v
  | Next v => ret v
  end.

Notation "x <~ s ;; k" := (then_ s (fun x => k))
  (at level 100, s at next level, right associativity) : py_scope.
Notation "s ;;~ k" := (then_ s (fun _ => k))
  (at level 100, right associativity) : py_scope.

(** [display.info] and [display.warning] print to the terminal. *)
Definition info {St} (msg : string) : M St unit := emit (EInfo msg).
Definition warning {St} (msg : string) : M St unit := emit (EWarning msg).

(** ** Heap operations *)

Definition load (x : loc) : M heap obj :=
  fun h =>
    match h !! x with
    | Some o => (Ret o, h, [])
    | None => (Raise SystemError, h, [])
    end.

Definition alloc (o : obj) : M heap loc :=
  fun h => (Ret (length h), h ++ [o], []).

Definition store (x : loc) (o : obj) : M heap unit :=
  fun h => (Ret tt, <[x := o]> h, []).

(** [copy.deepcopy(x)]. Library code, modelled by its contract on the
    objects of this module: an atom is its own copy, a container is rebuilt
    in a new cell from the copies of its items. [fuel] bounds the nesting
    depth, as the interpreter's recursion limit does; the memo table of the
    library, which only preserves sharing inside the copy, is left out. *)
Fixpoint deepcopy (fuel : nat) (x : loc) : M heap loc :=
  match fuel with
  | O => raise RecursionError
  | S fuel' =>
      o <- load x ;;
      match o with
      | OAtom _ => ret x
      | OList items =>
          ys <- mapM (deepcopy fuel') items ;;
          alloc (OList ys)
      | ODict items =>
          ys <- mapM (fun kv => y <- deepcopy fuel' kv.2 ;; ret (kv.1, y)) items ;;
          alloc (ODict ys)
      end
  end.

(** [key in x] for a string [key]. *)
Definition py_in (key : string) (x : loc) : M heap bool :=
  o <- load x ;;
  match o with
  | ODict items => ret (bool_decide (key ∈ items.*1))
  | OList items =>
      h <- get ;;
      ret (existsb (fun l => match h !! l with
                             | Some (OAtom (AStr s)) => String.eqb s key
                             | _ => false
                             end) items)
  | OAtom (AStr s) => ret (PyStr.contains key s)
  | OAtom _ => raise TypeError
  end.

(** [del x[key]] for a string [key]. The keys of a [dict] are unique, so
    dropping the entries under [key] removes the one entry. *)
Definition py_delitem (key : string) (x : loc) : M heap unit :=
  o <- load x ;;
  match o with
  | ODict items =>
      if bool_decide (key ∈ items.*1)
      then store x (ODict (filter (fun kv => kv.1 ≠ key) items))
      else raise (KeyError key)
  | _ => raise TypeError
  end.

(** ** [_normalize_data_to_send] *)

Definition excluded_fields : list string := ["model_config"; "epoch_history"].

Definition _normalize_data_to_send (fuel : nat) (info : loc) : M heap loc :=
  info <- deepcopy fuel info ;;
  for_each excluded_fields (fun key =>
    present <- py_in key info ;;
    if present then py_delitem key info else ret tt) ;;
  ret info.

(** ** Outcome values *)

Definition DISABLE : string := "disable".
Definition AUTH_ERROR : string := "authentication error".
Definition CONNECT_ERROR : string := "connection error".
Definition UPLOAD_ERROR : string := "upload error".
Definition OK : string := "ok".
Definition ERROR : string := "error".

(** ** Reading values *)

(** The [json=] argument of [requests.post]: the object graph written out
    as a tree. Library code; [fuel] bounds the nesting depth. *)
Fixpoint json_dumps (fuel : nat) (x : loc) : M heap pyval :=
  match fuel with
  | O => raise RecursionError
  | S fuel' =>
      o <- load x ;;
      match o with
      | OAtom a => ret (VAtom a)
      | OList items =>
          vs <- mapM (json_dumps fuel') items ;;
          ret (VList vs)
      | ODict items =>
          vs <- mapM (fun kv => v <- json_dumps fuel' kv.2 ;; ret (kv.1, v)) items ;;
          ret (VDict vs)
      end
  end.

Fixpoint assoc {A} (key : string) (items : list (string * A)) : option A :=
  match items with
  | [] => None
  | (k, v) :: rest => if String.eqb k key then Some v else assoc key rest
  end.

(** [v[key]] for a string [key]. *)
Definition py_getitem (v : pyval) (key : string) : result pyval :=
  match v with
  | VDict items =>
      match assoc key items with
      | Some x => Ret x
      | None => Raise (KeyError key)
      end
  | _ => Raise TypeError
  end.

(** [v == s] for a string literal [s]. *)
Definition py_eq_str (v : pyval) (s : string) : bool :=
  match v with
  | VAtom (AStr s') => String.eqb s' s
  | _ => false
  end.

Abbreviation transport := (request -> result response).

Section Transport.

(** [requests.post]: answers a request with a response or raises. *)
Variable requests_post : transport.

Definition post {St} (r : request) : M St response :=
  emit (EPost r) ;; lift_result (requests_post r).

(** ** [send_to_backend] *)

Definition send_to_backend (fuel : nat) (url : string) (api_key : option string)
    (info_type : string) (info : loc) : M heap atom :=
  def (
    data <~ run (_normalize_data_to_send fuel info) ;;
    body <~ run (json_dumps fuel data) ;;
    response <~ run (post {|
      req_url := url;
      req_headers := [("X-AUTH", api_key)];
      req_json := Some (VDict [("type", VAtom (AStr info_type)); ("data", body)])
    |}) ;;
    if negb (ok response) then
      response_json <~
        match json response with
        | Ret parsed => run (ret parsed)
        | Raise JSONDecodeError =>
            run (warning ("Cloud service down -- data not uploaded: " +:+ text response)) ;;~
            return_ (AStr CONNECT_ERROR)
        | Raise e => run (raise e)
        end ;;
      status <~ run (lift_result (py_getitem response_json "status")) ;;
      (if py_eq_str status "Unauthorized" then
         run (warning "Invalid backend API key.") ;;~
         return_ (AStr AUTH_ERROR)
       else
         run (warning ("Warning! Cloud service upload failed: " +:+ text response)) ;;~
         return_ (AStr UPLOAD_ERROR) : stmt heap atom unit) ;;~
      return_ (AStr ERROR)
    else
      return_ (AStr OK)).

(** ** [class CloudService] *)

(** A work item of the process pool: the arguments of one
    [executor.submit(send_to_backend, url, api_key, info_type, info)]. *)
Record task : Type := {
  task_url : string;
  task_api_key : option string;
  task_info_type : string;
  task_info : payload
}.

(** [executor] holds the work items submitted to the current pool. *)
Record CloudService : Type := {
  enabled : bool;
  status : atom;
  base_url : string;
  api_key : option string;
  log_interval : Q;
  last_update : Q;
  executor : list task
}.

Definition set_enabled (b : bool) (self : CloudService) : CloudService :=
  {| enabled := b; status := status self; base_url := base_url self;
     api_key := api_key self; log_interval := log_interval self;
     last_update := last_update self; executor := executor self |}.

Definition set_status (v : atom) (self : CloudService) : CloudService :=
  {| enabled := enabled self; status := v; base_url := base_url self;
     api_key := api_key self; log_interval := log_interval self;
     last_update := last_update self; executor := executor self |}.

Definition set_base_url (u : string) (self : CloudService) : CloudService :=
  {| enabled := enabled self; status := status self; base_url := u;
     api_key := api_key self; log_interval := log_interval self;
     last_update := last_update self; executor := executor self |}.

Definition set_api_key (k : option string) (self : CloudService) : CloudService :=
  {| enabled := enabled self; status := status self; base_url := base_url self;
     api_key := k; log_interval := log_interval self;
     last_update := last_update self; executor := executor self |}.

Definition set_last_update (ts : Q) (self : CloudService) : CloudService :=
  {| enabled := enabled self; status := status self; base_url := base_url self;
     api_key := api_key self; log_interval := log_interval self;
     last_update := ts; executor := executor self |}.

Definition set_executor (pool : list task) (self : CloudService) : CloudService :=
  {| enabled := enabled self; status := status self; base_url := base_url self;
     api_key := api_key self; log_interval := log_interval self;
     last_update := last_update self; executor := pool |}.

(** [executor.submit(send_to_backend, ...)]: queue the work item and return
    at once; its result is never read. *)
Definition submit (t : task) : M CloudService unit :=
  modify (fun self => set_executor (executor self ++ [t]) self).

(** What a worker process does with a work item: it calls
    [send_to_backend] on its own copy of the arguments. *)
Definition run_task (fuel : nat) (t : task) : M heap atom :=
  send_to_backend fuel (task_url t) (task_api_key t) (task_info_type t) (task_info t).2.

Definition __init__ : CloudService :=
  {| enabled := false;
     status := AStr "disable";
     base_url := "https://us-central1-kerastuner-prod.cloudfunctions.net/api/";
     api_key := None;
     log_interval := 5%Q;
     last_update := (-1)%Q;
     executor := [] |}.

Definition _check_access : M CloudService bool :=
  def (
    self <~ run get ;;
    (if decide (api_key self = Some "test_key_true") then return_ true else pass) ;;~
    (if decide (api_key self = Some "test_key_false") then return_ false else pass) ;;~
    let url := _url_join [base_url self; "v1/check-access"] in
    response <~ run (post {|
      req_url := url;
      req_headers := [("X-AUTH", api_key self)];
      req_json := None
    |}) ;;
    return_ (ok response)).

(** Truth value of a string: [if url:] holds for a non-empty one. *)
Definition truthy (s : string) : bool :=
  match s with
  | EmptyString => false
  | String _ _ => true
  end.

Definition enable (key : string) (url : option string) : M CloudService atom :=
  modify (set_api_key (Some key)) ;;
  match url with
  | Some u => if truthy u then modify (set_base_url u) else ret tt
  | None => ret tt
  end ;;
  granted <- _check_access ;;
  if granted then
    info "Cloud service enabled - Go to https://.. to track your tuning results in realtime." ;;
    modify (set_status (AStr OK)) ;;
    modify (set_enabled true) ;;
    ret ANone
  else
    warning "Invalid cloud API key" ;;
    modify (set_status (AStr AUTH_ERROR)) ;;
    modify (set_enabled false) ;;
    ret ANone.

(** [executor.shutdown(wait=True)] followed by a new pool. The work items
    run in the worker processes; the client keeps none of their results. *)
Definition complete : M CloudService atom :=
  modify (set_executor []) ;;
  ret ANone.

Definition _send_nonblocking (info_type : string) (info : payload) : M CloudService atom :=
  def (
    self <~ run get ;;
    (if negb (enabled self) then return_ ANone else pass) ;;~
    let url := _url_join [base_url self; "v1/update"] in
    run (submit {| task_url := url; task_api_key := api_key self;
                   task_info_type := info_type; task_info := info |}) ;;~
    run (ret ANone)).

(** Runs a computation on the object graph of a payload and keeps its
    result and its events. *)
Definition on_heap {St A} (h : heap) (m : M heap A) : M St A :=
  fun s => let '(r, _, t) := m h in (r, s, t).

Definition _send_blocking (fuel : nat) (info_type : string) (info : payload)
    : M CloudService atom :=
  def (
    self <~ run get ;;
    (if negb (enabled self) then return_ (AStr "disabled") else pass) ;;~
    let url := _url_join [base_url self; "v1/update"] in
    outcome <~ run (on_heap info.1
                      (send_to_backend fuel url (api_key self) info_type info.2)) ;;
    run (modify (set_status outcome)) ;;~
    run (ret ANone)).

(** [a > b] on timestamps. *)
Definition Qgtb (a b : Q) : bool := negb (Qle_bool a b).

(** [ts] is the reading of [time.time()]. *)
Definition send_status (status : payload) (ts : Q) : M CloudService atom :=
  self <- get ;;
  (if Qgtb (ts - last_update self) (log_interval self) then
     _send_nonblocking "status" status ;;
     modify (set_last_update ts)
   else ret tt) ;;
  ret ANone.

Definition send_results (results : payload) : M CloudService atom :=
  _send_nonblocking "results" results ;;
  ret ANone.

Definition get_config : M CloudService pyval :=
  self <- get ;;
  let res := VDict [("enabled", VAtom (ABool (enabled self)));
                    ("status", VAtom (status self));
                    ("last_update", VAtom (ANum (last_update self)))] in
  ret res.

End Transport.

(** * Vocabulary of the properties *)

(** The work item that [_send_nonblocking] queues. *)
Definition update_task (self : CloudService) (info_type : string) (info : payload) : task :=
  {| task_url := _url_join [base_url self; "v1/update"];
     task_api_key := api_key self;
     task_info_type := info_type;
     task_info := info |}.

(** Number of work items queued between two states of one pool. *)
Definition dispatched (before after : CloudService) : nat :=
  length (executor after) - length (executor before).

(** Nesting depth of a value: the fuel that copying or writing it takes. *)
Fixpoint depth (v : pyval) : nat :=
  match v with
  | VAtom _ => 1
  | VList items => S (list_max (map depth items))
  | VDict items => S (list_max (map (fun kv => depth kv.2) items))
  end.

(** [repr lo h x v]: the object at [x] in [h] reads as the tree [v], and
    every container of it lies at an address not below [lo]. *)
Inductive repr (lo : nat) (h : heap) : loc -> pyval -> Prop :=
| repr_atom x a :
    h !! x = Some (OAtom a) ->
    repr lo h x (VAtom a)
| repr_list x refs items :
    h !! x = Some (OList refs) ->
    lo <= x ->
    Forall2 (repr lo h) refs items ->
    repr lo h x (VList items)
| repr_dict x refs items :
    h !! x = Some (ODict refs) ->
    lo <= x ->
    Forall2 (fun kr kv => kr.1 = kv.1 /\ repr lo h kr.2 kv.2) refs items ->
    repr lo h x (VDict items).

(** The tree that [_normalize_data_to_send] returns for a [dict]. *)
Definition without_excluded (items : list (string * pyval)) : list (string * pyval) :=
  filter (fun kv => kv.1 ∉ excluded_fields) items.

(** *** The classification, as the specification words it

    Success is [OK]; a failure whose body does not parse is
    [CONNECT_ERROR]; a failure whose parsed ['status'] is ['Unauthorized']
    is [AUTH_ERROR]; any other failure is [UPLOAD_ERROR]. *)
Definition has_status_unauthorized (parsed : pyval) : bool :=
  match py_getitem parsed "status" with
  | Ret st => py_eq_str st "Unauthorized"
  | Raise _ => false
  end.

Definition spec_outcome (r : response) : string :=
  if ok r then OK
  else match json r with
       | Raise _ => CONNECT_ERROR
       | Ret parsed =>
           if has_status_unauthorized parsed then AUTH_ERROR else UPLOAD_ERROR
       end.

(** The warning that goes with an outcome: none for [OK], one for each
    failure. *)
Definition outcome_warnings (r : response) : list event :=
  if ok r then []
  else match json r with
       | Raise _ =>
           [EWarning ("Cloud service down -- data not uploaded: " +:+ text r)]
       | Ret parsed =>
           if has_status_unauthorized parsed
           then [EWarning "Invalid backend API key."]
           else [EWarning ("Warning! Cloud service upload failed: " +:+ text r)]
       end.

(** The responses on which the code reaches a [return]: success, a body
    that fails to parse with [JSONDecodeError], or a parsed body that can be
    indexed by ['status']. *)
Definition classifiable (r : response) : Prop :=
  ok r = true
  \/ json r = Raise JSONDecodeError
  \/ exists parsed st, json r = Ret parsed /\ py_getitem parsed "status" = Ret st.

(** ** Sample inputs *)

(** A transport that cannot reach the service. *)
Definition unreachable : transport :=
  fun _ => Raise (OtherError "ConnectionError").

(** A small payload: [{"model_config": "cfg", "score": 1}]. *)
Definition sample_payload : payload :=
  ([OAtom (ANum 1); OAtom (AStr "cfg"); ODict [("model_config", 1); ("score", 0)]], 2).

(** The client after [enable('test_key_true')]. *)
Definition enabled_client : CloudService :=
  (enable unreachable "test_key_true" None __init__).1.2.

(** The enabled client after a status update sent at time 100. *)
Definition reported_client : CloudService :=
  (send_status sample_payload 100 enabled_client).1.2.

(** The payload [{}]. *)
Definition empty_payload : payload := ([ODict []], 0).

(** A failure response whose body is the JSON object [{}]. *)
Definition failure_empty_object : response :=
  {| ok := false; json := Ret (VDict []); text := "{}" |}.

(** The text of a JSON object with one string member. *)
Definition json_member_text (key value : string) : string :=
  let quote := String (ascii_of_nat 34) EmptyString in
  "{" +:+ quote +:+ key +:+ quote +:+ ": " +:+ quote +:+ value +:+ quote +:+ "}".

(** A failure response whose body is a JSON object with one member. *)
Definition failure_with (key value : string) : response :=
  {| ok := false;
     json := Ret (VDict [(key, VAtom (AStr value))]);
     text := json_member_text key value |}.

(** A failure response whose body is not JSON. *)
Definition failure_not_json : response :=
  {| ok := false; json := Raise JSONDecodeError; text := "<html>502 Bad Gateway</html>" |}.

Definition success : response :=
  {| ok := true; json := Raise JSONDecodeError; text := EmptyString |}.

(** ** Vocabulary of the further properties *)

(** [n] separators in a row. *)
Fixpoint slashes (n : nat) : string :=
  match n with
  | O => EmptyString
  | S n' => String "/" (slashes n')
  end.

(** The base URL that [enable] leaves in place: the [url] argument when it
    is given and not empty, the stored one otherwise. *)
Definition effective_base (url : option string) (self : CloudService) : string :=
  match url with
  | Some u => if truthy u then u else base_url self
  | None => base_url self
  end.

(** The request of [_check_access]. *)
Definition access_request (base : string) (key : option string) : request :=
  {| req_url := _url_join [base; "v1/check-access"];
     req_headers := [("X-AUTH", key)];
     req_json := None |}.

(** The request of [send_to_backend] for a body [data]. *)
Definition update_request (url : string) (key : option string) (info_type : string)
    (data : pyval) : request :=
  {| req_url := url;
     req_headers := [("X-AUTH", key)];
     req_json := Some (VDict [("type", VAtom (AStr info_type)); ("data", data)]) |}.

(** What lines 70 to 86 of [send_to_backend] make of a response: the value
    returned or the exception raised, and the warnings printed. *)
Definition response_result (r : response) : result atom * list event :=
  if ok r then (Ret (AStr OK), [])
  else match json r with
       | Raise JSONDecodeError =>
           (Ret (AStr CONNECT_ERROR),
            [EWarning ("Cloud service down -- data not uploaded: " +:+ text r)])
       | Raise e => (Raise e, [])
       | Ret parsed =>
           match py_getitem parsed "status" with
           | Raise e => (Raise e, [])
           | Ret st =>
               if py_eq_str st "Unauthorized"
               then (Ret (AStr AUTH_ERROR), [EWarning "Invalid backend API key."])
               else (Ret (AStr UPLOAD_ERROR),
                     [EWarning ("Warning! Cloud service upload failed: " +:+ text r)])
           end
       end.

Definition is_warning (ev : event) : bool :=
  match ev with EWarning _ => true | _ => false end.

(** A call of one of the two reporting methods. *)
Inductive report : Type :=
| Status (info : payload) (ts : Q)
| Results (info : payload).

(** The calls made one after the other on the same client. *)
Definition send_all (calls : list report) : M CloudService unit :=
  for_each calls (fun c =>
    match c with
    | Status info ts => send_status info ts
    | Results info => send_results info
    end ;;
    ret tt).

(** The payloads of the [Results] calls, in call order. *)
Definition results_of (calls : list report) : list payload :=
  omap (fun c => match c with Results info => Some info | Status _ _ => None end) calls.

(** The work items of one type in a pool. *)
Definition items_of_type (info_type : string) (pool : list task) : list task :=
  filter (fun t => task_info_type t = info_type) pool.

(** The client as [enable] leaves it before the access check: the key is
    stored and the base URL is the effective one. *)
Definition prepared (key : string) (url : option string) (self : CloudService)
    : CloudService :=
  set_base_url (effective_base url self) (set_api_key (Some key) self).

(** * Properties *)

(** ** [_url_join] *)

Example url_join_doc :
  _url_join ["https://example.com/a/b/"; "update"] = "https://example.com/a/b/update".
Proof. reflexivity. Qed.

Lemma rstrip_snoc chars c s :
  PyStr.mem c chars = true ->
  PyStr.rstrip chars (s +:+ String c EmptyString) = PyStr.rstrip chars s.
Proof.
  intros Hc. induction s as [|a rest IH]; simpl.
  - by rewrite Hc.
  - by rewrite IH.
Qed.

Lemma rstrip_no_trailing chars c s r :
  PyStr.mem c chars = true ->
  PyStr.rstrip chars s <> r +:+ String c EmptyString.
Proof.
  intros Hc. revert r. induction s as [|a rest IH]; intros r; simpl.
  - by destruct r.
  - destruct (PyStr.rstrip chars rest) as [|k kept] eqn:Hrest.
    + destruct (PyStr.mem a chars) eqn:Ha.
      * by destruct r.
      * destruct r as [|b r']; simpl.
        -- intros [= ->]. congruence.
        -- intros [= _ Habs]. by destruct r'.
    + destruct r as [|b r']; simpl.
      * intros [=].
      * intros [= _ Habs]. by apply (IH r').
Qed.

Lemma rstrip_cons_nonempty chars a s :
  PyStr.rstrip chars s <> EmptyString ->
  PyStr.rstrip chars (String a s) = String a (PyStr.rstrip chars s).
Proof. simpl. by destruct (PyStr.rstrip chars s). Qed.

Lemma url_join_two base seg :
  _url_join [base; seg] = PyStr.rstrip "/" base +:+ "/" +:+ PyStr.rstrip "/" seg.
Proof. reflexivity. Qed.

(** C4, as the code has it: [_url_join] strips the trailing separators of
    each part and puts one separator between the parts. The result does not
    depend on a trailing ['/'] of the base (nor of the segment) and the
    stripped base never ends in ['/']; a leading ['/'] of the segment is
    kept, so it follows the inserted one. *)
Theorem url_join_strips_trailing_only (base seg : string) :
  _url_join [base; seg] = PyStr.rstrip "/" base +:+ "/" +:+ PyStr.rstrip "/" seg
  /\ _url_join [base +:+ "/"; seg] = _url_join [base; seg]
  /\ _url_join [base; seg +:+ "/"] = _url_join [base; seg]
  /\ (forall r, PyStr.rstrip "/" base <> r +:+ "/")
  /\ (PyStr.rstrip "/" seg <> EmptyString ->
      _url_join [base; "/" +:+ seg]
      = PyStr.rstrip "/" base +:+ "//" +:+ PyStr.rstrip "/" seg).
Proof.
  repeat split.
  - rewrite !url_join_two. by rewrite rstrip_snoc.
  - rewrite !url_join_two. by rewrite rstrip_snoc.
  - intros r. by apply rstrip_no_trailing.
  - intros Hseg. rewrite url_join_two.
    change ("/" +:+ seg) with (String "/" seg).
    rewrite rstrip_cons_nonempty by done. reflexivity.
Qed.

Lemma url_join_strips_trailing_only_witness :
  PyStr.rstrip "/" "update" <> EmptyString
  /\ _url_join ["https://x/y/"; "update"] = "https://x/y/update"
  /\ _url_join ["https://x/y"; "/update"] = "https://x/y//update".
Proof.
  assert (Hne : PyStr.rstrip "/" "update" <> EmptyString) by (vm_compute; discriminate).
  destruct (url_join_strips_trailing_only "https://x/y" "update") as (H1 & H2 & _ & _ & H5).
  split; [exact Hne|]. split.
  - change "https://x/y/" with ("https://x/y" +:+ "/"). rewrite H2, H1. reflexivity.
  - change "/update" with ("/" +:+ "update"). rewrite (H5 Hne). reflexivity.
Defined.

(** C4, as stated, fails: a leading ['/'] on the segment changes the URL. *)
Lemma url_join_leading_separator_kept :
  _url_join ["https://x/y"; "/update"] = "https://x/y//update"
  /\ _url_join ["https://x/y"; "/update"] <> "https://x/y/update"
  /\ _url_join ["https://x/y"; "/update"] <> _url_join ["https://x/y/"; "update"].
Proof. vm_compute. repeat split; discriminate. Qed.

(** ** The client: [enable], [send_status], [send_results], [get_config] *)


Lemma Qgtb_false a b : Qgtb a b = false <-> (a <= b)%Q.
Proof.
  unfold Qgtb. rewrite negb_false_iff. apply Qle_bool_iff.
Qed.

Lemma send_nonblocking_disabled info_type info self :
  enabled self = false ->
  _send_nonblocking info_type info self = (Ret ANone, self, []).
Proof.
  intros H. unfold _send_nonblocking, def, then_, run, bind, get, return_, ret.
  simpl. by rewrite H.
Qed.

Lemma send_nonblocking_enabled info_type info self :
  enabled self = true ->
  _send_nonblocking info_type info self
  = (Ret ANone, set_executor (executor self ++ [update_task self info_type info]) self, []).
Proof.
  intros H. unfold _send_nonblocking, def, then_, run, bind, get, return_, ret.
  simpl. by rewrite H.
Qed.

(** C6: with either reserved key, [enable] never reaches the transport, and
    its outcome does not depend on it: ['test_key_true'] leaves the client
    enabled with status [OK], ['test_key_false'] leaves it disabled with
    status [AUTH_ERROR]. *)
Theorem enable_reserved_keys (rp rp' : transport) (url : option string) (self : CloudService) :
  (exists self' evs,
      enable rp "test_key_true" url self = (Ret ANone, self', evs)
      /\ enabled self' = true /\ status self' = AStr OK
      /\ api_key self' = Some "test_key_true"
      /\ filter (fun ev => is_post ev = true) evs = []
      /\ enable rp' "test_key_true" url self = enable rp "test_key_true" url self)
  /\ (exists self' evs,
      enable rp "test_key_false" url self = (Ret ANone, self', evs)
      /\ enabled self' = false /\ status self' = AStr AUTH_ERROR
      /\ api_key self' = Some "test_key_false"
      /\ filter (fun ev => is_post ev = true) evs = []
      /\ enable rp' "test_key_false" url self = enable rp "test_key_false" url self).
Proof.
  split; destruct url as [[|c u]|]; do 2 eexists;
    (split; [reflexivity|]); repeat split.
Qed.

(** C7, as the code has it: on a disabled client [send_results] queues
    nothing, changes no field and returns [None]; on an enabled client every
    call queues exactly one work item of type ["results"] and returns [None]
    as well. *)
Theorem send_results_dispatch (results : payload) (self : CloudService) :
  (enabled self = false ->
     send_results results self = (Ret ANone, self, [])
     /\ dispatched self self = 0)
  /\ (enabled self = true ->
     send_results results self
     = (Ret ANone, set_executor (executor self ++ [update_task self "results" results]) self, [])
     /\ dispatched self (set_executor (executor self ++ [update_task self "results" results]) self) = 1).
Proof.
  split; intros H.
  - split.
    + unfold send_results, bind. by rewrite send_nonblocking_disabled.
    + unfold dispatched. lia.
  - split.
    + unfold send_results, bind. by rewrite send_nonblocking_enabled.
    + unfold dispatched. simpl. rewrite length_app. simpl. lia.
Qed.

Lemma send_results_dispatch_witness :
  enabled __init__ = false /\ enabled enabled_client = true
  /\ send_results sample_payload __init__ = (Ret ANone, __init__, [])
  /\ dispatched enabled_client (send_results sample_payload enabled_client).1.2 = 1.
Proof.
  assert (H0 : enabled __init__ = false) by reflexivity.
  assert (H1 : enabled enabled_client = true) by reflexivity.
  destruct (send_results_dispatch sample_payload __init__) as [Hoff _].
  destruct (send_results_dispatch sample_payload enabled_client) as [_ Hon].
  destruct (Hoff H0) as [Hr _]. destruct (Hon H1) as [Hs Hd].
  split; [exact H0|]. split; [exact H1|]. split; [exact Hr|].
  rewrite Hs. exact Hd.
Defined.

(** C7, as stated, fails: a disabled client answers [send_results] with
    [None], the value an enabled client gets too; the string ['disabled'] is
    returned by [_send_blocking] only. *)
Lemma send_results_returns_no_indicator :
  (send_results sample_payload __init__).1.1 = Ret ANone
  /\ (send_results sample_payload __init__).1.1 <> Ret (AStr "disabled")
  /\ (send_results sample_payload __init__).1.1 <> Ret (AStr DISABLE)
  /\ (send_results sample_payload __init__).1.1
     = (send_results sample_payload enabled_client).1.1
  /\ (_send_blocking unreachable 8 "results" sample_payload __init__).1.1
     = Ret (AStr "disabled").
Proof. vm_compute. repeat split; discriminate. Qed.




(** C9: the snapshot of [get_config] has exactly the keys [enabled],
    [status] and [last_update], reading leaves the client as it was, and two
    clients that differ in the stored API key only give the same snapshot. *)
Theorem get_config_omits_api_key (self : CloudService) (key : option string) :
  get_config self
  = (Ret (VDict [("enabled", VAtom (ABool (enabled self)));
                 ("status", VAtom (status self));
                 ("last_update", VAtom (ANum (last_update self)))]), self, [])
  /\ (forall items, (get_config self).1.1 = Ret (VDict items) ->
        items.*1 = ["enabled"; "status"; "last_update"])
  /\ (get_config (set_api_key key self)).1.1 = (get_config self).1.1.
Proof.
  split; [reflexivity|]. split; [|reflexivity].
  intros items [= <-]. reflexivity.
Qed.

Lemma get_config_omits_api_key_witness :
  (get_config enabled_client).1.1
  = Ret (VDict [("enabled", VAtom (ABool true)); ("status", VAtom (AStr "ok"));
                ("last_update", VAtom (ANum (-1)))])
  /\ (get_config (set_api_key (Some "secret") enabled_client)).1.1
     = (get_config enabled_client).1.1.
Proof.
  destruct (get_config_omits_api_key enabled_client (Some "secret")) as (H1 & _ & H3).
  split; [|exact H3]. rewrite H1. reflexivity.
Defined.


(** A debounced call changes nothing. *)
Lemma send_status_debounced (info : payload) (ts : Q) (self : CloudService) :
  (ts - last_update self <= log_interval self)%Q ->
  send_status info ts self = (Ret ANone, self, []).
Proof.
  intros Hgate. apply Qgtb_false in Hgate.
  unfold send_status, bind, get. simpl. by rewrite Hgate.
Qed.




(** ** [send_to_backend]: classification of the response *)

(** C10: whatever the transport answers, a value returned by
    [send_to_backend] is [OK], [AUTH_ERROR], [CONNECT_ERROR] or
    [UPLOAD_ERROR]; the [return ERROR] after the classification is never
    reached, so [ERROR] is never the result. *)
Theorem send_to_backend_outcomes (rp : transport) (fuel : nat) (url : string)
    (key : option string) (info_type : string) (info : loc) (h h' : heap)
    (v : atom) (evs : list event) :
  send_to_backend rp fuel url key info_type info h = (Ret v, h', evs) ->
  (v = AStr OK \/ v = AStr AUTH_ERROR \/ v = AStr CONNECT_ERROR \/ v = AStr UPLOAD_ERROR)
  /\ v <> AStr ERROR.
Proof.
  intros H.
  assert (Hv : v = AStr OK \/ v = AStr AUTH_ERROR \/ v = AStr CONNECT_ERROR
               \/ v = AStr UPLOAD_ERROR).
  { revert H.
    unfold send_to_backend, def, then_, run, bind, post, emit, lift_result,
      return_, ret, raise, warning.
    destruct (_normalize_data_to_send fuel info h) as [[[data|e] h1] t1]; [|done].
    destruct (json_dumps fuel data h1) as [[[body|e] h2] t2]; [|done].
    simpl.
    match goal with |- context [rp ?req] => destruct (rp req) as [resp|e] end;
      [|done].
    simpl. destruct (ok resp); simpl; [intros [= <- _ _]; auto|].
    destruct (json resp) as [parsed|e]; [|destruct e]; simpl; try done.
    - destruct (py_getitem parsed "status") as [st|e]; simpl; [|done].
      destruct (py_eq_str st "Unauthorized"); simpl; intros [= <- _ _]; auto.
    - intros [= <- _ _]. auto. }
  split; [exact Hv|].
  destruct Hv as [-> | [-> | [-> | ->]]]; discriminate.
Qed.

(** ** [_normalize_data_to_send]: a deep copy without the excluded fields *)

Lemma pyval_ind' (P : pyval -> Prop) :
  (forall a, P (VAtom a)) ->
  (forall items, Forall P items -> P (VList items)) ->
  (forall items, Forall (fun kv => P kv.2) items -> P (VDict items)) ->
  forall v, P v.
Proof.
  intros Ha Hl Hd. fix IH 1. intros [a|items|items].
  - apply Ha.
  - apply Hl. induction items as [|v items IHitems]; constructor.
    + apply IH.
    + apply IHitems.
  - apply Hd. induction items as [|[k v] items IHitems]; constructor.
    + apply IH.
    + apply IHitems.
Qed.

Lemma Forall2_Forall_impl {A B} (P Q : A -> B -> Prop) (R : B -> Prop) l k :
  Forall R k ->
  Forall2 P l k ->
  (forall a b, R b -> P a b -> Q a b) ->
  Forall2 Q l k.
Proof.
  intros HR HP Himpl. revert HR.
  induction HP as [|a b l k Hab _ IH]; intros HR; constructor.
  - apply Himpl; [|done]. by inversion HR.
  - apply IH. by inversion HR.
Qed.

(** Growing the heap and lowering the bound keep a reading. *)
Lemma repr_mono lo lo' h h' x v :
  lo' <= lo -> h `prefix_of` h' -> repr lo h x v -> repr lo' h' x v.
Proof.
  intros Hlo Hpre. revert x.
  induction v as [a|items IH|items IH] using pyval_ind'; intros x Hx;
    inversion Hx; subst.
  - constructor. by eapply prefix_lookup_Some.
  - eapply repr_list; [by eapply prefix_lookup_Some | lia |].
    eapply Forall2_Forall_impl; [exact IH | eassumption |].
    intros a b Hb Hab. by apply Hb.
  - eapply repr_dict; [by eapply prefix_lookup_Some | lia |].
    eapply Forall2_Forall_impl; [exact IH | eassumption |].
    intros a b Hb [Hk Hab]. split; [done|]. by apply Hb.
Qed.

Lemma depth_list_items items n :
  depth (VList items) <= S n -> Forall (fun v => depth v <= n) items.
Proof.
  simpl. intros H. apply le_S_n, list_max_le in H.
  by apply List.Forall_map in H.
Qed.

Lemma depth_dict_items items n :
  depth (VDict items) <= S n -> Forall (fun kv => depth kv.2 <= n) items.
Proof.
  simpl. intros H. apply le_S_n, list_max_le in H.
  by apply List.Forall_map in H.
Qed.

(** [mapM] over a list whose items each satisfy a specification that only
    grows the heap. *)
Section mapM_spec.
Context {A B C : Type}.
Variable f : A -> M heap B.
Variable Pre : heap -> A -> C -> Prop.
Variable Post : heap -> B -> C -> Prop.
Variable Q : C -> Prop.
Variable h0 : heap.
Hypothesis Pre_mono : forall h h' a c, h `prefix_of` h' -> Pre h a c -> Pre h' a c.
Hypothesis Post_mono : forall h h' b c, h `prefix_of` h' -> Post h b c -> Post h' b c.
Hypothesis f_spec : forall a c h,
  h0 `prefix_of` h -> Q c -> Pre h a c ->
  exists b h', f a h = (Ret b, h', []) /\ h `prefix_of` h' /\ Post h' b c.

Lemma mapM_spec xs cs h :
  h0 `prefix_of` h -> Forall Q cs -> Forall2 (Pre h) xs cs ->
  exists bs h', mapM f xs h = (Ret bs, h', []) /\ h `prefix_of` h'
                /\ Forall2 (Post h') bs cs.
Proof.
  revert cs h. induction xs as [|a xs IH]; intros cs h Hh HQ HPre.
  - inversion HPre; subst. exists [], h. repeat split; [done|constructor].
  - inversion HPre as [|? c ? cs' Hac Hrest]; subst.
    inversion HQ as [|? ? Hc HQ']; subst.
    destruct (f_spec a c h Hh Hc Hac) as (b & h1 & Hf & Hpre1 & Hpost1).
    destruct (IH cs' h1) as (bs & h2 & Hm & Hpre2 & Hpost2).
    + by etrans.
    + done.
    + eapply Forall2_impl; [exact Hrest|]. intros. by eapply Pre_mono.
    + exists (b :: bs), h2. simpl. unfold bind at 1. rewrite Hf.
      unfold bind at 1. rewrite Hm. simpl. repeat split.
      * by etrans.
      * constructor; [|done]. by eapply Post_mono.
Qed.
End mapM_spec.

Example normalize_example :
  let h := [OAtom (ANum 1); OAtom (AStr "cfg"); ODict [("model_config", 1); ("score", 0)]] in
  _normalize_data_to_send 5 2 h
  = (Ret 3, h ++ [ODict [("score", 0)]], []).
Proof. reflexivity. Qed.

Lemma load_Some (h : heap) x o : h !! x = Some o -> load x h = (Ret o, h, []).
Proof. intros H. unfold load. by rewrite H. Qed.

(** Copying a [dict] whose items can be copied with [fuel]: the items are
    copied into a grown heap [h1] and the new [dict] is the next cell. *)
Lemma deepcopy_dict_step fuel (h : heap) x refs items :
  (forall v x (h : heap),
     depth v <= fuel -> repr 0 h x v ->
     exists y h', deepcopy fuel x h = (Ret y, h', [])
                  /\ h `prefix_of` h' /\ repr (length h) h' y v) ->
  h !! x = Some (ODict refs) ->
  Forall2 (fun kr kv => kr.1 = kv.1 /\ repr 0 h kr.2 kv.2) refs items ->
  Forall (fun kv => depth kv.2 <= fuel) items ->
  exists h1 copies,
    deepcopy (S fuel) x h = (Ret (length h1), h1 ++ [ODict copies], [])
    /\ h `prefix_of` h1
    /\ Forall2 (fun kr kv => kr.1 = kv.1 /\ repr (length h) h1 kr.2 kv.2) copies items.
Proof.
  intros IH Hl Hrefs Hd.
  destruct (mapM_spec (fun kv => y <- deepcopy fuel kv.2 ;; ret (kv.1, y))
              (fun h (a : string * loc) (c : string * pyval) =>
                 a.1 = c.1 /\ repr 0 h a.2 c.2)
              (fun h' (b : string * loc) (c : string * pyval) =>
                 b.1 = c.1 /\ repr (length h) h' b.2 c.2)
              (fun c => depth c.2 <= fuel) h) with (xs := refs) (cs := items) (h := h)
    as (ys & h1 & Hm & Hpre & Hpost).
  - intros ? ? ? ? ? [? ?]. split; [done|]. by eapply repr_mono.
  - intros ? ? ? ? ? [? ?]. split; [done|]. by eapply repr_mono.
  - intros a c h2 Hh2 Hc [Hk Ha].
    destruct (IH c.2 a.2 h2 Hc Ha) as (b & h3 & Hb & Hp & Hr).
    exists (a.1, b), h3. unfold bind. rewrite Hb. simpl.
    repeat split; [done..|].
    eapply repr_mono; [|reflexivity|exact Hr]. by apply prefix_length.
  - done.
  - done.
  - done.
  - exists h1, ys. simpl. unfold bind at 1.
    rewrite (load_Some _ _ _ Hl). unfold bind at 1. rewrite Hm. by simpl.
Qed.

(** With enough fuel [deepcopy] returns; it only appends cells, and the
    copy reads as the original with every container in a new cell. *)
Lemma deepcopy_spec fuel : forall v x (h : heap),
  depth v <= fuel -> repr 0 h x v ->
  exists y h', deepcopy fuel x h = (Ret y, h', [])
               /\ h `prefix_of` h' /\ repr (length h) h' y v.
Proof.
  induction fuel as [|fuel IH]; intros v x h Hd Hx.
  { destruct v; simpl in Hd; lia. }
  inversion Hx as [? a Hl|? refs items Hl _ Hrefs|? refs items Hl _ Hrefs]; subst.
  - exists x, h. simpl. unfold bind. rewrite (load_Some _ _ _ Hl). simpl.
    split; [done|]. split; [done|]. by constructor.
  - destruct (mapM_spec (deepcopy fuel) (fun h a c => repr 0 h a c)
                (fun h' b c => repr (length h) h' b c)
                (fun c => depth c <= fuel) h) with (xs := refs) (cs := items) (h := h)
      as (ys & h1 & Hm & Hpre & Hpost).
    + intros. by eapply repr_mono.
    + intros. by eapply repr_mono.
    + intros a c h2 Hh2 Hc Ha.
      destruct (IH c a h2 Hc Ha) as (b & h3 & Hb & Hp & Hr).
      exists b, h3. repeat split; [done..|].
      eapply repr_mono; [|reflexivity|exact Hr]. by apply prefix_length.
    + done.
    + by apply depth_list_items.
    + done.
    + exists (length h1), (h1 ++ [OList ys]). simpl. unfold bind at 1.
      rewrite (load_Some _ _ _ Hl). unfold bind. rewrite Hm. simpl.
      split; [done|]. split; [by apply prefix_app_r|].
      eapply repr_list.
      * by rewrite lookup_app_r, Nat.sub_diag.
      * by apply prefix_length.
      * eapply Forall2_impl; [exact Hpost|]. intros.
        eapply repr_mono; [reflexivity| |eassumption]. by apply prefix_app_r.
  - destruct (deepcopy_dict_step fuel h x refs items IH Hl Hrefs)
      as (h1 & ys & Hrun & Hpre & Hpost); [by apply depth_dict_items|].
    exists (length h1), (h1 ++ [ODict ys]).
    split; [done|]. split; [by apply prefix_app_r|].
    eapply repr_dict.
    + by rewrite lookup_app_r, Nat.sub_diag.
    + by apply prefix_length.
    + eapply Forall2_impl; [exact Hpost|]. intros ? ? [? ?]. split; [done|].
      eapply repr_mono; [reflexivity| |eassumption]. by apply prefix_app_r.
Qed.

Lemma filter_all {A} (P : A -> Prop) `{!forall x, Decision (P x)} (l : list A) :
  (forall x, P x) -> filter P l = l.
Proof.
  intros HP. induction l as [|x l IH]; [done|].
  rewrite filter_cons_True by done. by rewrite IH.
Qed.

Lemma filter_absent_key {A} key (refs : list (string * A)) :
  key ∉ refs.*1 -> filter (fun kv => kv.1 ≠ key) refs = refs.
Proof.
  induction refs as [|[k r] refs IH]; [done|].
  rewrite fmap_cons. intros [Hne Hin]%not_elem_of_cons.
  rewrite filter_cons_True by (simpl; intros ->; by apply Hne). by rewrite IH.
Qed.

(** Removing one key from the [dict] in the last cell, if it is there. *)
Lemma remove_key_step key (h1 : heap) refs :
  (present <- py_in key (length h1) ;;
   if present then py_delitem key (length h1) else ret tt) (h1 ++ [ODict refs])
  = (Ret tt, h1 ++ [ODict (filter (fun kv => kv.1 ≠ key) refs)], []).
Proof.
  assert (Hl : (h1 ++ [ODict refs]) !! length h1 = Some (ODict refs))
    by (by rewrite lookup_app_r, Nat.sub_diag).
  unfold py_in, py_delitem. unfold bind at 1. unfold bind at 1.
  rewrite (load_Some _ _ _ Hl). simpl.
  destruct (bool_decide (key ∈ refs.*1)) eqn:Hin.
  - unfold bind. rewrite (load_Some _ _ _ Hl). rewrite Hin. simpl.
    unfold store. do 2 f_equal. f_equal.
    replace (length h1) with (length h1 + 0) at 1 by lia.
    by rewrite insert_app_r.
  - simpl. apply bool_decide_eq_false in Hin.
    by rewrite filter_absent_key.
Qed.

Lemma remove_keys_loop keys (h1 : heap) refs :
  for_each keys (fun key =>
    present <- py_in key (length h1) ;;
    if present then py_delitem key (length h1) else ret tt) (h1 ++ [ODict refs])
  = (Ret tt, h1 ++ [ODict (filter (fun kv => kv.1 ∉ keys) refs)], []).
Proof.
  revert refs. induction keys as [|key keys IH]; intros refs; simpl.
  - unfold ret. rewrite filter_all; [done|]. intros kr. apply not_elem_of_nil.
  - unfold bind at 1. rewrite remove_key_step. rewrite IH. simpl.
    rewrite list_filter_filter.
    rewrite (list_filter_iff _ (fun kv => kv.1 ∉ key :: keys)); [done|].
    intros [k r]. simpl. rewrite not_elem_of_cons. tauto.
Qed.

Lemma Forall2_filter_keys {A B} (R : A -> B -> Prop)
    (P1 : string * A -> Prop) (P2 : string * B -> Prop)
    `{!forall kr, Decision (P1 kr), !forall kv, Decision (P2 kv)}
    (refs : list (string * A)) (items : list (string * B)) :
  (forall kr kv, kr.1 = kv.1 -> P1 kr <-> P2 kv) ->
  Forall2 (fun kr kv => kr.1 = kv.1 /\ R kr.2 kv.2) refs items ->
  Forall2 (fun kr kv => kr.1 = kv.1 /\ R kr.2 kv.2) (filter P1 refs) (filter P2 items).
Proof.
  intros HP. induction 1 as [|kr kv refs items [Hk HR] _ IH]; [constructor|].
  rewrite !filter_cons.
  destruct (decide (P1 kr)) as [H1|H1], (decide (P2 kv)) as [H2|H2].
  - constructor; [|done]. by split.
  - by apply (HP _ _ Hk) in H1.
  - by apply (HP _ _ Hk) in H2.
  - done.
Qed.

(** The run of [_normalize_data_to_send] on a [dict]: a copy in new cells
    that reads as the input without the excluded fields, in a heap that
    extends the input heap. *)
Lemma normalize_dict_run (fuel : nat) (h : heap) (info : loc)
    (items : list (string * pyval)) :
  depth (VDict items) <= fuel ->
  repr 0 h info (VDict items) ->
  exists copy h',
    _normalize_data_to_send fuel info h = (Ret copy, h', [])
    /\ repr (length h) h' copy (VDict (without_excluded items))
    /\ h `prefix_of` h'.
Proof.
  intros Hd Hx.
  destruct fuel as [|fuel]; [simpl in Hd; lia|].
  inversion Hx as [| |? refs ? Hl _ Hrefs]; subst.
  destruct (deepcopy_dict_step fuel h info refs items (deepcopy_spec fuel) Hl Hrefs)
    as (h1 & copies & Hrun & Hpre & Hpost); [by apply depth_dict_items|].
  set (h' := h1 ++ [ODict (filter (fun kr => kr.1 ∉ excluded_fields) copies)]).
  exists (length h1), h'. split; [|split].
  - unfold _normalize_data_to_send. unfold bind at 1. rewrite Hrun.
    unfold bind at 1. by rewrite remove_keys_loop.
  - eapply repr_dict.
    + unfold h'. by rewrite lookup_app_r, Nat.sub_diag.
    + by apply prefix_length.
    + unfold without_excluded.
      apply (Forall2_filter_keys (repr (length h) h'));
        [by intros ? ? ->|].
      eapply Forall2_impl; [exact Hpost|]. intros ? ? [? ?]. split; [done|].
      eapply repr_mono; [reflexivity| |eassumption]. by apply prefix_app_r.
  - by apply prefix_app_r.
Qed.



(** *** Writing the payload out *)

Lemma mapM_read {A C} (f : A -> M heap C) (h : heap) xs cs :
  Forall2 (fun a c => f a h = (Ret c, h, [])) xs cs ->
  mapM f xs h = (Ret cs, h, []).
Proof.
  induction 1 as [|a c xs cs Hf _ IH]; [done|].
  simpl. unfold bind at 1. rewrite Hf. unfold bind at 1. by rewrite IH.
Qed.

(** With enough fuel [json_dumps] returns the tree that the object reads
    as, and leaves the heap alone. *)
Lemma json_dumps_spec fuel : forall lo v x (h : heap),
  depth v <= fuel -> repr lo h x v -> json_dumps fuel x h = (Ret v, h, []).
Proof.
  induction fuel as [|fuel IH]; intros lo v x h Hd Hx.
  { destruct v; simpl in Hd; lia. }
  inversion Hx as [? a Hl|? refs items Hl _ Hrefs|? refs items Hl _ Hrefs]; subst;
    simpl; unfold bind at 1; rewrite (load_Some _ _ _ Hl).
  - done.
  - unfold bind. rewrite (mapM_read _ _ refs items); [done|].
    eapply Forall2_Forall_impl; [by apply depth_list_items | exact Hrefs |].
    intros a c Hc Ha. by eapply IH.
  - unfold bind at 1. rewrite (mapM_read _ _ refs items); [done|].
    eapply Forall2_Forall_impl; [by apply depth_dict_items | exact Hrefs |].
    intros [k r] [k' v] Hc [Hk Ha]. simpl in *. subst k'.
    unfold bind. by rewrite (IH lo v r h Hc Ha).
Qed.

(** On a classifiable response [send_to_backend] returns the outcome of
    the specification, after one request that carries the sanitized payload
    and the warning of that outcome. *)
Lemma send_to_backend_classifies (rp : transport) (fuel : nat) (url : string)
    (key : option string) (info_type : string) (info : loc) (h : heap)
    (items : list (string * pyval)) (r : response) :
  depth (VDict items) <= fuel ->
  repr 0 h info (VDict items) ->
  (forall req, rp req = Ret r) ->
  classifiable r ->
  exists h',
    send_to_backend rp fuel url key info_type info h
    = (Ret (AStr (spec_outcome r)), h',
       EPost {| req_url := url;
                req_headers := [("X-AUTH", key)];
                req_json := Some (VDict [("type", VAtom (AStr info_type));
                                         ("data", VDict (without_excluded items))]) |}
       :: outcome_warnings r)
    /\ h `prefix_of` h'.
Proof.
  intros Hd Hx Hrp Hcls.
  destruct (normalize_dict_run fuel h info items Hd Hx)
    as (copy & h' & Hrun & Hcopy & Hpre).
  assert (Hd' : depth (VDict (without_excluded items)) <= fuel).
  { etrans; [|exact Hd]. simpl. apply le_n_S.
    apply list_max_le. apply List.Forall_map.
    apply Forall_forall. intros kv [_ Hkv]%list_elem_of_filter.
    assert (Hall : Forall (fun k => k <= list_max (map (fun kv => depth kv.2) items))
                     (map (fun kv => depth kv.2) items)) by by apply list_max_le.
    apply List.Forall_map in Hall. rewrite Forall_forall in Hall. by apply Hall. }
  pose proof (json_dumps_spec fuel _ _ _ _ Hd' Hcopy) as Hdump.
  exists h'. split; [|exact Hpre].
  unfold send_to_backend, def. unfold then_ at 1, run at 1.
  unfold bind at 1. unfold bind at 1. unfold bind at 1. rewrite Hrun. simpl.
  unfold then_ at 1, run at 1.
  unfold bind at 1. unfold bind at 1. rewrite Hdump. simpl.
  unfold then_ at 1, run at 1, post.
  unfold bind at 1. unfold bind at 1. unfold bind at 1. unfold emit. simpl.
  unfold lift_result. rewrite Hrp. simpl.
  unfold spec_outcome, outcome_warnings, has_status_unauthorized.
  destruct Hcls as [Hok|[Hjson|(parsed & st & Hjson & Hst)]].
  - by rewrite Hok.
  - destruct (ok r); simpl; [done|]. by rewrite Hjson.
  - destruct (ok r); simpl; [done|].
    rewrite Hjson. simpl. unfold then_, run, bind, lift_result. simpl.
    rewrite Hst. simpl. by destruct (py_eq_str st "Unauthorized").
Qed.

Lemma send_to_backend_outcomes_witness :
  exists h' evs,
    send_to_backend (fun _ => Ret (failure_with "status" "Forbidden")) 5
      "https://host/api/v1/update" (Some "key") "results"
      sample_payload.2 sample_payload.1
    = (Ret (AStr UPLOAD_ERROR), h', evs)
    /\ AStr UPLOAD_ERROR <> AStr ERROR.
Proof.
  eexists _, _.
  assert (Hrun : send_to_backend (fun _ => Ret (failure_with "status" "Forbidden")) 5
            "https://host/api/v1/update" (Some "key") "results"
            sample_payload.2 sample_payload.1
          = (Ret (AStr UPLOAD_ERROR), _, _)) by (vm_compute; reflexivity).
  split; [exact Hrun|].
  exact (proj2 (send_to_backend_outcomes _ _ _ _ _ _ _ _ _ _ Hrun)).
Defined.

(** Each of the four outcomes is returned for some response. *)
Lemma send_to_backend_four_outcomes (url : string) (key : option string) :
  let send r := (send_to_backend (fun _ => Ret r) 5 url key "results"
                   sample_payload.2 sample_payload.1).1.1 in
  send success = Ret (AStr OK)
  /\ send failure_not_json = Ret (AStr CONNECT_ERROR)
  /\ send (failure_with "status" "Unauthorized") = Ret (AStr AUTH_ERROR)
  /\ send (failure_with "status" "Forbidden") = Ret (AStr UPLOAD_ERROR).
Proof. repeat split. Qed.

(** C1 does not hold of the code: on a failure response whose body is the
    JSON object [{}], [send_to_backend] leaves with [KeyError('status')]
    instead of returning an outcome. *)
Theorem send_to_backend_key_error_escapes (url : string) (key : option string)
    (info_type : string) :
  (send_to_backend (fun _ => Ret failure_empty_object) 5 url key info_type
     empty_payload.2 empty_payload.1).1.1
  = Raise (KeyError "status").
Proof. reflexivity. Qed.

(** C2 does not hold of the code: a failure response whose body parses but
    has no ['status'] is [UPLOAD_ERROR] for the specification, and the code
    raises [KeyError('status')] on it; a body that is a JSON array raises
    [TypeError]. *)
Theorem send_to_backend_unclassified_failure (url : string) (key : option string)
    (info_type : string) :
  let send r := (send_to_backend (fun _ => Ret r) 5 url key info_type
                   empty_payload.2 empty_payload.1).1.1 in
  let no_status := failure_with "message" "quota exceeded" in
  let array := {| ok := false; json := Ret (VList []); text := "[]" |} in
  spec_outcome no_status = UPLOAD_ERROR
  /\ send no_status = Raise (KeyError "status")
  /\ spec_outcome array = UPLOAD_ERROR
  /\ send array = Raise TypeError.
Proof. repeat split. Qed.

(** The work item that [send_results] queues, once a worker runs it against
    a service that accepts it: one request to [v1/update] with the client's
    key, type ["results"] and the payload without the excluded fields. *)
Lemma run_results_task (rp : transport) (fuel : nat) (self : CloudService)
    (results : payload) (items : list (string * pyval)) :
  depth (VDict items) <= fuel ->
  repr 0 results.1 results.2 (VDict items) ->
  (forall req, rp req = Ret success) ->
  exists h',
    run_task rp fuel (update_task self "results" results) results.1
    = (Ret (AStr OK), h',
       [EPost {| req_url := _url_join [base_url self; "v1/update"];
                 req_headers := [("X-AUTH", api_key self)];
                 req_json := Some (VDict [("type", VAtom (AStr "results"));
                                          ("data", VDict (without_excluded items))]) |}]).
Proof.
  intros Hd Hx Hrp.
  destruct (send_to_backend_classifies rp fuel (_url_join [base_url self; "v1/update"])
              (api_key self) "results" results.2 results.1 items success Hd Hx Hrp)
    as (h' & Hrun & _); [by left|].
  exists h'. exact Hrun.
Qed.

(** * Further properties *)

(** ** [_url_join] on any number of parts *)

Lemma string_app_cons a s t : String a s +:+ t = String a (s +:+ t).
Proof. reflexivity. Qed.

Lemma string_app_assoc s t u : (s +:+ t) +:+ u = s +:+ (t +:+ u).
Proof.
  induction s as [|a s IH]; [reflexivity|].
  rewrite !string_app_cons. by rewrite IH.
Qed.

Lemma rstrip_idempotent chars s :
  PyStr.rstrip chars (PyStr.rstrip chars s) = PyStr.rstrip chars s.
Proof.
  induction s as [|a rest IH]; [reflexivity|].
  cbn [PyStr.rstrip].
  destruct (PyStr.rstrip chars rest) as [|k kept] eqn:Hrest.
  - destruct (PyStr.mem a chars) eqn:Ha; [reflexivity|].
    cbn [PyStr.rstrip]. by rewrite Ha.
  - change (PyStr.rstrip chars (String a (String k kept)))
      with (match PyStr.rstrip chars (String k kept) with
            | EmptyString => if PyStr.mem a chars then EmptyString
                             else String a EmptyString
            | kept' => String a kept'
            end).
    by rewrite IH.
Qed.

Lemma rstrip_slashes_app s n :
  PyStr.rstrip "/" (s +:+ slashes n) = PyStr.rstrip "/" s.
Proof.
  revert s. induction n as [|n IH]; intros s.
  - induction s as [|a s IHs]; [reflexivity|].
    rewrite string_app_cons. cbn [PyStr.rstrip]. by rewrite IHs.
  - change (slashes (S n)) with ("/" +:+ slashes n).
    rewrite <- string_app_assoc, IH. by apply rstrip_snoc.
Qed.

Lemma rstrip_splits s :
  exists n, s = PyStr.rstrip "/" s +:+ slashes n.
Proof.
  induction s as [|a rest [n IH]]; [by exists 0|].
  cbn [PyStr.rstrip].
  destruct (PyStr.rstrip "/" rest) as [|k kept] eqn:Hrest.
  - destruct (PyStr.mem a "/") eqn:Ha.
    + exists (S n). cbn [PyStr.mem] in Ha.
      destruct (Ascii.eqb "/" a) eqn:Heq; [|discriminate].
      apply Ascii.eqb_eq in Heq. subst a. by rewrite IH at 1.
    + exists n. by rewrite IH at 1.
  - exists n. rewrite string_app_cons. by rewrite <- IH.
Qed.

Lemma rstrip_app_nonempty chars s t :
  PyStr.rstrip chars t <> EmptyString ->
  PyStr.rstrip chars (s +:+ t) = s +:+ PyStr.rstrip chars t.
Proof.
  intros Ht. induction s as [|a s IH]; [reflexivity|].
  rewrite !string_app_cons. cbn [PyStr.rstrip]. rewrite IH.
  destruct (s +:+ PyStr.rstrip chars t) eqn:E; [|reflexivity].
  destruct s; [|discriminate E]. by destruct Ht.
Qed.

(** X1: a single part loses exactly its trailing separators: the part is
    the result followed by separators only, and the result has no trailing
    separator. *)
Theorem url_join_single_strips_exactly (part : string) :
  (exists n, part = _url_join [part] +:+ slashes n)
  /\ (forall r, _url_join [part] <> r +:+ "/").
Proof.
  split.
  - apply rstrip_splits.
  - intros r. by apply rstrip_no_trailing.
Qed.

(** X2: for any number of parts, the result depends on each part only up
    to its trailing separators: any number of ['/'] may be added at the end
    of any part. *)
Theorem url_join_ignores_trailing_separators (parts parts' : list string) :
  Forall2 (fun p p' => exists n, p' = p +:+ slashes n) parts parts' ->
  _url_join parts' = _url_join parts.
Proof.
  intros H. unfold _url_join. f_equal.
  induction H as [|p p' parts parts' [n ->] _ IH]; [reflexivity|].
  cbn [map]. by rewrite IH, rstrip_slashes_app.
Qed.

Lemma url_join_ignores_trailing_separators_witness :
  _url_join ["https://x/y///"; "v1/"; "update//"]
  = _url_join ["https://x/y"; "v1"; "update"].
Proof.
  apply url_join_ignores_trailing_separators.
  constructor; [by exists 3|]. constructor; [by exists 1|].
  constructor; [by exists 2|]. constructor.
Defined.

(** X3: joining step by step gives the same URL as joining at once, as long
    as the middle part is not empty once stripped. *)
Theorem url_join_stepwise (a b c : string) :
  PyStr.rstrip "/" b <> EmptyString ->
  _url_join [_url_join [a; b]; c] = _url_join [a; b; c].
Proof.
  intros Hb.
  assert (Hmid : PyStr.rstrip "/" ("/" +:+ PyStr.rstrip "/" b)
                 = "/" +:+ PyStr.rstrip "/" b).
  { change ("/" +:+ PyStr.rstrip "/" b) with (String "/" (PyStr.rstrip "/" b)).
    rewrite rstrip_cons_nonempty; rewrite rstrip_idempotent; done. }
  unfold _url_join. cbn [map PyStr.join].
  rewrite rstrip_app_nonempty by (rewrite Hmid; discriminate).
  rewrite Hmid. by rewrite !string_app_assoc.
Qed.

Lemma url_join_stepwise_witness :
  PyStr.rstrip "/" "v1/" <> EmptyString
  /\ _url_join [_url_join ["https://x/api/"; "v1/"]; "update"]
     = "https://x/api/v1/update".
Proof.
  assert (Hb : PyStr.rstrip "/" "v1/" <> EmptyString) by (vm_compute; discriminate).
  split; [exact Hb|].
  rewrite (url_join_stepwise "https://x/api/" "v1/" "update" Hb). reflexivity.
Defined.

(** ** [enable] and [_check_access] against the service *)

Lemma check_access_run (rp : transport) (self : CloudService) :
  _check_access rp self
  = if decide (api_key self = Some "test_key_true") then (Ret true, self, [])
    else if decide (api_key self = Some "test_key_false") then (Ret false, self, [])
    else (match rp (access_request (base_url self) (api_key self)) with
          | Ret r => Ret (ok r)
          | Raise e => Raise e
          end, self, [EPost (access_request (base_url self) (api_key self))]).
Proof.
  unfold _check_access, def, then_, run, bind, get, return_, pass, ret, post,
    emit, lift_result, access_request.
  simpl. repeat case_decide; try reflexivity.
  simpl. by destruct (rp _).
Qed.

Lemma enable_run (rp : transport) (key : string) (url : option string)
    (self : CloudService) :
  enable rp key url self
  = match _check_access rp (prepared key url self) with
    | (Ret true, _, evs) =>
        (Ret ANone, set_enabled true (set_status (AStr OK) (prepared key url self)),
         evs ++ [EInfo "Cloud service enabled - Go to https://.. to track your tuning results in realtime."])
    | (Ret false, _, evs) =>
        (Ret ANone, set_enabled false (set_status (AStr AUTH_ERROR) (prepared key url self)),
         evs ++ [EWarning "Invalid cloud API key"])
    | (Raise e, _, evs) => (Raise e, prepared key url self, evs)
    end.
Proof.
  rewrite check_access_run.
  unfold prepared, effective_base.
  destruct url as [u|]; [destruct (truthy u) eqn:Hu|];
    unfold enable, bind, modify, info, warning, emit, ret;
    cbn beta iota; rewrite ?Hu; cbn beta iota;
    rewrite check_access_run;
    cbn [api_key base_url set_base_url set_api_key];
    repeat case_decide; try reflexivity;
    (destruct (rp _) as [r|e]; [|reflexivity]; by destruct (ok r)).
Qed.

Lemma not_reserved key :
  key <> "test_key_true" -> key <> "test_key_false" ->
  Some key <> Some "test_key_true" /\ Some key <> Some "test_key_false".
Proof. intros H1 H2. split; intros [= ?]; contradiction. Qed.

(** X4: with a key that is not reserved, [enable] posts once to
    [v1/check-access] under the effective base URL, with the key in the
    [X-AUTH] header and no body; when the transport answers, the client is
    enabled exactly when the response is a success, with status [OK] or
    [AUTH_ERROR] and one message printed. *)
Theorem enable_checks_access (rp : transport) (key : string) (url : option string)
    (self : CloudService) (r : response) :
  key <> "test_key_true" ->
  key <> "test_key_false" ->
  rp (access_request (effective_base url self) (Some key)) = Ret r ->
  exists self' msg,
    enable rp key url self
    = (Ret ANone, self',
       [EPost (access_request (effective_base url self) (Some key)); msg])
    /\ enabled self' = ok r
    /\ status self' = AStr (if ok r then OK else AUTH_ERROR)
    /\ msg = (if ok r
              then EInfo "Cloud service enabled - Go to https://.. to track your tuning results in realtime."
              else EWarning "Invalid cloud API key")
    /\ api_key self' = Some key
    /\ base_url self' = effective_base url self
    /\ log_interval self' = log_interval self
    /\ last_update self' = last_update self
    /\ executor self' = executor self.
Proof.
  intros H1 H2 Hrp. destruct (not_reserved key H1 H2) as [N1 N2].
  rewrite enable_run, check_access_run.
  change (api_key (prepared key url self)) with (Some key).
  change (base_url (prepared key url self)) with (effective_base url self).
  rewrite !decide_False by done. rewrite Hrp.
  destruct (ok r); do 2 eexists; (split; [reflexivity|]); repeat split.
Qed.

Lemma enable_checks_access_witness :
  exists self',
    enable (fun _ => Ret failure_not_json) "user-key" (Some "https://host/api/") __init__
    = (Ret ANone, self',
       [EPost (access_request "https://host/api/" (Some "user-key"));
        EWarning "Invalid cloud API key"])
    /\ enabled self' = false
    /\ status self' = AStr AUTH_ERROR.
Proof.
  destruct (enable_checks_access (fun _ => Ret failure_not_json) "user-key"
              (Some "https://host/api/") __init__ failure_not_json)
    as (self' & msg & Hrun & Hen & Hst & Hmsg & _);
    [discriminate | discriminate | reflexivity |].
  exists self'. rewrite Hmsg in Hrun. split; [exact Hrun|]. split; [exact Hen | exact Hst].
Defined.

(** X5: when [enable] raises (the transport raised), the key and the base
    URL have already been overwritten while [enabled] and [status] are as
    before: a client that was enabled stays enabled, now with the unchecked
    key. One request was attempted and nothing was printed. *)
Theorem enable_raise_keeps_flags (rp : transport) (key : string) (url : option string)
    (self self' : CloudService) (e : exn) (evs : list event) :
  enable rp key url self = (Raise e, self', evs) ->
  self' = prepared key url self
  /\ enabled self' = enabled self
  /\ status self' = status self
  /\ api_key self' = Some key
  /\ base_url self' = effective_base url self
  /\ rp (access_request (effective_base url self) (Some key)) = Raise e
  /\ evs = [EPost (access_request (effective_base url self) (Some key))].
Proof.
  rewrite enable_run, check_access_run.
  change (api_key (prepared key url self)) with (Some key).
  change (base_url (prepared key url self)) with (effective_base url self).
  repeat case_decide; try discriminate.
  destruct (rp _) as [r|e'] eqn:Hrp; [destruct (ok r); discriminate|].
  intros [= <- <- <-]. repeat split.
Qed.

Lemma enable_raise_keeps_flags_witness :
  enable unreachable "user-key" None enabled_client
  = (Raise (OtherError "ConnectionError"), prepared "user-key" None enabled_client,
     [EPost (access_request (base_url enabled_client) (Some "user-key"))])
  /\ enabled (prepared "user-key" None enabled_client) = true
  /\ api_key (prepared "user-key" None enabled_client) = Some "user-key".
Proof.
  assert (Hrun : enable unreachable "user-key" None enabled_client
                 = (Raise (OtherError "ConnectionError"),
                    prepared "user-key" None enabled_client,
                    [EPost (access_request (base_url enabled_client) (Some "user-key"))]))
    by reflexivity.
  destruct (enable_raise_keeps_flags _ _ _ _ _ _ _ Hrun) as (_ & Hen & _ & Hkey & _).
  split; [exact Hrun|]. split; [exact Hen | exact Hkey].
Defined.

(** X6: after any run of [enable] that returns, [enabled] and [status]
    agree (enabled with [OK], or disabled with [AUTH_ERROR]), whatever the
    client was before; the key is the one passed, the debounce state and the
    pool are untouched, and at most one request was made. *)
Theorem enable_flags_agree (rp : transport) (key : string) (url : option string)
    (self self' : CloudService) (v : atom) (evs : list event) :
  enable rp key url self = (Ret v, self', evs) ->
  v = ANone
  /\ (enabled self' = true /\ status self' = AStr OK
      \/ enabled self' = false /\ status self' = AStr AUTH_ERROR)
  /\ api_key self' = Some key
  /\ base_url self' = effective_base url self
  /\ log_interval self' = log_interval self
  /\ last_update self' = last_update self
  /\ executor self' = executor self
  /\ length (filter (fun ev => is_post ev = true) evs) <= 1.
Proof.
  rewrite enable_run, check_access_run.
  change (api_key (prepared key url self)) with (Some key).
  change (base_url (prepared key url self)) with (effective_base url self).
  repeat case_decide.
  - intros [= <- <- <-]. repeat split; auto.
  - intros [= <- <- <-]. repeat split; auto.
  - destruct (rp _) as [r|e]; [|discriminate].
    destruct (ok r); intros [= <- <- <-]; repeat split; auto.
Qed.

Lemma enable_flags_agree_witness :
  exists self' evs,
    enable (fun _ => Ret success) "user-key" None enabled_client = (Ret ANone, self', evs)
    /\ enabled self' = true /\ status self' = AStr OK.
Proof.
  eexists _, _.
  assert (Hrun : enable (fun _ => Ret success) "user-key" None enabled_client
                 = (Ret ANone, _, _)) by reflexivity.
  destruct (enable_flags_agree _ _ _ _ _ _ _ Hrun) as (_ & Hflags & _).
  split; [exact Hrun|]. destruct Hflags as [[H1 H2]|[H1 _]].
  - split; [exact H1 | exact H2].
  - discriminate H1.
Defined.

(** ** Sequences of [send_status] and [send_results] calls *)

Lemma send_results_run (info : payload) (self : CloudService) :
  send_results info self
  = (Ret ANone,
     if enabled self
     then set_executor (executor self ++ [update_task self "results" info]) self
     else self, []).
Proof.
  unfold send_results, bind. destruct (enabled self) eqn:Hen.
  - by rewrite send_nonblocking_enabled.
  - by rewrite send_nonblocking_disabled.
Qed.

Lemma send_status_run (info : payload) (ts : Q) (self : CloudService) :
  send_status info ts self
  = (Ret ANone,
     if Qgtb (ts - last_update self) (log_interval self)
     then set_last_update ts
            (if enabled self
             then set_executor (executor self ++ [update_task self "status" info]) self
             else self)
     else self, []).
Proof.
  unfold send_status, bind, get. cbn beta iota.
  destruct (Qgtb (ts - last_update self) (log_interval self)); [|reflexivity].
  destruct (enabled self) eqn:Hen.
  - by rewrite send_nonblocking_enabled.
  - by rewrite send_nonblocking_disabled.
Qed.

(** The state after one call. *)
Lemma send_all_cons (c : report) (calls : list report) (self : CloudService) :
  send_all (c :: calls) self
  = send_all calls
      match c with
      | Status info ts => (send_status info ts self).1.2
      | Results info => (send_results info self).1.2
      end.
Proof.
  unfold send_all. cbn [for_each]. unfold bind at 1. unfold bind at 1.
  destruct c as [info ts|info].
  - rewrite send_status_run. cbn.
    by destruct (for_each calls _ _) as [[? ?] ?].
  - rewrite send_results_run. cbn.
    by destruct (for_each calls _ _) as [[? ?] ?].
Qed.

Lemma send_all_nil (self : CloudService) : send_all [] self = (Ret tt, self, []).
Proof. reflexivity. Qed.

(** Fields that one call leaves alone, and the pool it extends. *)
Lemma call_frame (c : report) (self : CloudService) :
  let self' := match c with
               | Status info ts => (send_status info ts self).1.2
               | Results info => (send_results info self).1.2
               end in
  enabled self' = enabled self
  /\ status self' = status self
  /\ api_key self' = api_key self
  /\ base_url self' = base_url self
  /\ log_interval self' = log_interval self
  /\ executor self `prefix_of` executor self'.
Proof.
  destruct c as [info ts|info]; cbn zeta.
  - rewrite send_status_run. cbn [fst snd].
    destruct (Qgtb _ _), (enabled self) eqn:Hen; cbn; rewrite ?Hen;
      repeat split; try done; by apply prefix_app_r.
  - rewrite send_results_run. cbn [fst snd].
    destruct (enabled self) eqn:Hen; cbn; rewrite ?Hen;
      repeat split; try done; by apply prefix_app_r.
Qed.

(** X7: whatever calls of [send_status] and [send_results] are made, in
    any state, they all return without raising and without printing or
    posting from the caller; [enabled], [status], the key, the base URL and
    the interval stay as they were, and queued work items are only ever
    added at the end of the pool. *)
Theorem reporting_frame (calls : list report) (self : CloudService) :
  exists self',
    send_all calls self = (Ret tt, self', [])
    /\ enabled self' = enabled self
    /\ status self' = status self
    /\ api_key self' = api_key self
    /\ base_url self' = base_url self
    /\ log_interval self' = log_interval self
    /\ executor self `prefix_of` executor self'.
Proof.
  revert self. induction calls as [|c calls IH]; intros self.
  - exists self. by rewrite send_all_nil.
  - rewrite send_all_cons.
    destruct (call_frame c self) as (H1 & H2 & H3 & H4 & H5 & H6).
    destruct (IH match c with
                 | Status info ts => (send_status info ts self).1.2
                 | Results info => (send_results info self).1.2
                 end) as (self' & Hrun & K1 & K2 & K3 & K4 & K5 & K6).
    exists self'. split; [exact Hrun|].
    repeat split; try congruence. by etrans.
Qed.

(** X8: a client that is not enabled never queues anything, however many
    reports are made. *)
Theorem disabled_never_queues (calls : list report) (self : CloudService) :
  enabled self = false ->
  exists self',
    send_all calls self = (Ret tt, self', [])
    /\ executor self' = executor self
    /\ enabled self' = false.
Proof.
  revert self. induction calls as [|c calls IH]; intros self Hoff.
  - exists self. by rewrite send_all_nil.
  - rewrite send_all_cons.
    assert (Hstep : executor match c with
                             | Status info ts => (send_status info ts self).1.2
                             | Results info => (send_results info self).1.2
                             end = executor self).
    { destruct c as [info ts|info].
      - rewrite send_status_run, Hoff. cbn. by destruct (Qgtb _ _).
      - by rewrite send_results_run, Hoff. }
    destruct (call_frame c self) as (Hen & _).
    destruct (IH _ (eq_trans Hen Hoff)) as (self' & Hrun & Hex & Hoff').
    exists self'. split; [exact Hrun|]. split; [congruence | exact Hoff'].
Qed.

Lemma disabled_never_queues_witness :
  enabled __init__ = false
  /\ exists self',
       send_all [Status sample_payload 100; Results sample_payload;
                 Status sample_payload 200] __init__ = (Ret tt, self', [])
       /\ executor self' = [].
Proof.
  assert (Hoff : enabled __init__ = false) by reflexivity.
  destruct (disabled_never_queues
              [Status sample_payload 100; Results sample_payload; Status sample_payload 200]
              __init__ Hoff) as (self' & Hrun & Hex & _).
  split; [exact Hoff|]. exists self'. split; [exact Hrun | exact Hex].
Defined.

Lemma items_of_type_snoc info_type pool t :
  items_of_type info_type (pool ++ [t])
  = items_of_type info_type pool
    ++ (if decide (task_info_type t = info_type) then [t] else []).
Proof. unfold items_of_type. by rewrite filter_app. Qed.

(** How one call changes the items of each type. *)
Lemma call_items (c : report) (self : CloudService) :
  let self' := match c with
               | Status info ts => (send_status info ts self).1.2
               | Results info => (send_results info self).1.2
               end in
  match c with
  | Status info ts =>
      items_of_type "results" (executor self') = items_of_type "results" (executor self)
      /\ last_update self'
         = (if Qgtb (ts - last_update self) (log_interval self)
            then ts else last_update self)
      /\ (Qgtb (ts - last_update self) (log_interval self) = false -> self' = self)
      /\ length (items_of_type "status" (executor self'))
         <= S (length (items_of_type "status" (executor self)))
  | Results info =>
      items_of_type "status" (executor self') = items_of_type "status" (executor self)
      /\ last_update self' = last_update self
      /\ items_of_type "results" (executor self')
         = items_of_type "results" (executor self)
           ++ (if enabled self then [update_task self "results" info] else [])
  end.
Proof.
  assert (Hstatus : forall info,
            items_of_type "results" (executor self ++ [update_task self "status" info])
            = items_of_type "results" (executor self)).
  { intros info. rewrite items_of_type_snoc.
    rewrite decide_False by discriminate. by rewrite app_nil_r. }
  assert (Hstatus' : forall info,
            items_of_type "status" (executor self ++ [update_task self "status" info])
            = items_of_type "status" (executor self) ++ [update_task self "status" info]).
  { intros info. rewrite items_of_type_snoc. by rewrite decide_True. }
  assert (Hresults : forall info,
            items_of_type "status" (executor self ++ [update_task self "results" info])
            = items_of_type "status" (executor self)).
  { intros info. rewrite items_of_type_snoc.
    rewrite decide_False by discriminate. by rewrite app_nil_r. }
  assert (Hresults' : forall info,
            items_of_type "results" (executor self ++ [update_task self "results" info])
            = items_of_type "results" (executor self) ++ [update_task self "results" info]).
  { intros info. rewrite items_of_type_snoc. by rewrite decide_True. }
  destruct c as [info ts|info]; cbn zeta.
  - rewrite send_status_run. cbn [fst snd].
    destruct (Qgtb _ _), (enabled self);
      cbn [executor set_last_update set_executor last_update];
      rewrite ?Hstatus, ?Hstatus', ?length_app; cbn [length];
      (split; [done|]); (split; [done|]); (split; [done|]); lia.
  - rewrite send_results_run. cbn [fst snd].
    destruct (enabled self); cbn [executor set_executor last_update];
      rewrite ?Hresults, ?Hresults', ?app_nil_r; done.
Qed.

(** X9: on an enabled client every [send_results] call is queued, in call
    order, whatever [send_status] calls come in between: the ["results"]
    items of the pool grow by exactly one item per call. *)
Theorem results_are_never_dropped (calls : list report) (self : CloudService) :
  enabled self = true ->
  exists self',
    send_all calls self = (Ret tt, self', [])
    /\ items_of_type "results" (executor self')
       = items_of_type "results" (executor self)
         ++ map (update_task self "results") (results_of calls).
Proof.
  revert self. induction calls as [|c calls IH]; intros self Hon.
  - exists self. rewrite send_all_nil. split; [done|]. by rewrite app_nil_r.
  - rewrite send_all_cons.
    destruct (call_frame c self) as (Hen & _ & Hkey & Hbase & _).
    pose proof (call_items c self) as Hitems. cbn zeta in Hitems.
    destruct (IH _ (eq_trans Hen Hon)) as (self' & Hrun & Hres).
    exists self'. split; [exact Hrun|]. rewrite Hres.
    assert (Htask : forall info,
              update_task match c with
                          | Status info ts => (send_status info ts self).1.2
                          | Results info => (send_results info self).1.2
                          end "results" info
              = update_task self "results" info).
    { intros info. unfold update_task. by rewrite Hkey, Hbase. }
    rewrite (map_ext _ _ Htask).
    destruct c as [info ts|info].
    + destruct Hitems as (-> & _). done.
    + destruct Hitems as (_ & _ & ->). rewrite Hon. cbn.
      by rewrite <- app_assoc.
Qed.

Lemma results_are_never_dropped_witness :
  enabled enabled_client = true
  /\ exists self',
       send_all [Results sample_payload; Status sample_payload 100;
                 Results empty_payload; Status sample_payload 101;
                 Results sample_payload] enabled_client = (Ret tt, self', [])
       /\ items_of_type "results" (executor self')
          = [update_task enabled_client "results" sample_payload;
             update_task enabled_client "results" empty_payload;
             update_task enabled_client "results" sample_payload].
Proof.
  assert (Hon : enabled enabled_client = true) by reflexivity.
  destruct (results_are_never_dropped
              [Results sample_payload; Status sample_payload 100;
               Results empty_payload; Status sample_payload 101;
               Results sample_payload] enabled_client Hon) as (self' & Hrun & Hres).
  split; [exact Hon|]. exists self'. split; [exact Hrun | exact Hres].
Defined.

(** Once the last dispatch is within the interval of every later status
    call, no further ["status"] item is queued. *)
Lemma status_frozen (calls : list report) (self : CloudService) :
  (forall info ts, Status info ts ∈ calls ->
     (ts - last_update self <= log_interval self)%Q) ->
  exists self',
    send_all calls self = (Ret tt, self', [])
    /\ items_of_type "status" (executor self') = items_of_type "status" (executor self).
Proof.
  revert self. induction calls as [|c calls IH]; intros self Hall.
  - exists self. by rewrite send_all_nil.
  - rewrite send_all_cons.
    destruct (call_frame c self) as (_ & _ & _ & _ & Hint & _).
    pose proof (call_items c self) as Hitems. cbn zeta in Hitems.
    destruct c as [info ts|info].
    + destruct Hitems as (_ & _ & Hsame & _).
      rewrite Hsame.
      * apply IH. intros i t Hin. apply (Hall i t). by right.
      * apply Qgtb_false. apply (Hall info ts). by left.
    + destruct Hitems as (Hst & Hlast & _).
      destruct (IH (send_results info self).1.2) as (self' & Hrun & Hres).
      * intros i t Hin. rewrite Hlast, Hint. apply (Hall i t). by right.
      * exists self'. split; [exact Hrun|]. by rewrite Hres.
Qed.

(** X10: a burst of calls whose [send_status] timestamps lie within one
    interval of each other queues at most one ["status"] item, in any
    state and whatever [send_results] calls are mixed in. *)
Theorem status_burst_queues_at_most_one (calls : list report) (self : CloudService) :
  (forall info ts info' ts',
     Status info ts ∈ calls -> Status info' ts' ∈ calls ->
     (ts' - ts <= log_interval self)%Q) ->
  exists self',
    send_all calls self = (Ret tt, self', [])
    /\ length (items_of_type "status" (executor self'))
       <= S (length (items_of_type "status" (executor self))).
Proof.
  revert self. induction calls as [|c calls IH]; intros self Hall.
  - exists self. rewrite send_all_nil. split; [done|]. lia.
  - rewrite send_all_cons.
    destruct (call_frame c self) as (_ & _ & _ & _ & Hint & _).
    pose proof (call_items c self) as Hitems. cbn zeta in Hitems.
    destruct c as [info ts|info].
    + destruct Hitems as (_ & Hlast & Hsame & Hlen).
      destruct (Qgtb (ts - last_update self) (log_interval self)) eqn:Hgate.
      * destruct (status_frozen calls (send_status info ts self).1.2)
          as (self' & Hrun & Hres).
        { intros i t Hin. rewrite Hlast, Hint.
          apply (Hall info ts i t); [by left | by right]. }
        exists self'. split; [exact Hrun|]. by rewrite Hres.
      * rewrite (Hsame eq_refl). apply IH.
        intros i t i' t' Hin Hin'. apply (Hall i t i' t'); by right.
    + destruct Hitems as (Hst & _ & _).
      destruct (IH (send_results info self).1.2) as (self' & Hrun & Hres).
      * intros i t i' t' Hin Hin'. rewrite Hint. apply (Hall i t i' t'); by right.
      * exists self'. split; [exact Hrun|]. by rewrite <- Hst.
Qed.

Lemma status_burst_queues_at_most_one_witness :
  exists self',
    send_all [Status sample_payload 100; Results sample_payload;
              Status empty_payload 103; Status sample_payload 105] enabled_client
    = (Ret tt, self', [])
    /\ length (items_of_type "status" (executor self')) <= 1.
Proof.
  destruct (status_burst_queues_at_most_one
              [Status sample_payload 100; Results sample_payload;
               Status empty_payload 103; Status sample_payload 105] enabled_client)
    as (self' & Hrun & Hlen).
  { intros i t i' t' Hin Hin'.
    assert (Ht : t = 100%Q \/ t = 103%Q \/ t = 105%Q).
    { repeat (apply elem_of_cons in Hin as [Hin|Hin]; [inversion Hin; auto|]).
      by apply elem_of_nil in Hin. }
    assert (Ht' : t' = 100%Q \/ t' = 103%Q \/ t' = 105%Q).
    { repeat (apply elem_of_cons in Hin' as [Hin'|Hin']; [inversion Hin'; auto|]).
      by apply elem_of_nil in Hin'. }
    destruct Ht as [-> | [-> | ->]], Ht' as [-> | [-> | ->]]; by vm_compute. }
  exists self'. split; [exact Hrun | exact Hlen].
Defined.

(** ** [_normalize_data_to_send] and [send_to_backend] on any input *)

Lemma mapM_frame {A B} (f : A -> M heap B) :
  (forall a (h : heap), exists r h', f a h = (r, h', []) /\ h `prefix_of` h') ->
  forall l (h : heap), exists r h', mapM f l h = (r, h', []) /\ h `prefix_of` h'.
Proof.
  intros Hf. induction l as [|a l IH]; intros h.
  - exists (Ret []), h. done.
  - cbn [mapM]. unfold bind at 1.
    destruct (Hf a h) as ([b|e] & h1 & -> & Hp1); [|by exists (Raise e), h1].
    unfold bind at 1.
    destruct (IH h1) as ([bs|e] & h2 & -> & Hp2).
    + exists (Ret (b :: bs)), h2. split; [done|]. by etrans.
    + exists (Raise e), h2. split; [done|]. by etrans.
Qed.

(** [deepcopy] only appends cells and prints nothing, on every heap; what
    it returns is the atom it was given or a cell it has appended. *)
Lemma deepcopy_frame fuel : forall x (h : heap),
  exists r h',
    deepcopy fuel x h = (r, h', []) /\ h `prefix_of` h'
    /\ forall y, r = Ret y -> (exists a, h !! y = Some (OAtom a)) \/ length h <= y.
Proof.
  induction fuel as [|fuel IH]; intros x h.
  { exists (Raise RecursionError), h. by repeat split. }
  cbn [deepcopy]. unfold bind at 1, load.
  destruct (h !! x) as [[a|refs|refs]|] eqn:Hx.
  - exists (Ret x), h. repeat split; [done|]. intros y [= <-]. left. by exists a.
  - unfold bind at 1.
    destruct (mapM_frame (deepcopy fuel)) with (l := refs) (h := h)
      as ([ys|e] & h1 & -> & Hp1).
    { intros a h0. destruct (IH a h0) as (r & h' & ? & ? & _). by exists r, h'. }
    + exists (Ret (length h1)), (h1 ++ [OList ys]). cbn. repeat split.
      * by apply prefix_app_r.
      * intros y [= <-]. right. by apply prefix_length.
    + exists (Raise e), h1. by repeat split.
  - unfold bind at 1.
    destruct (mapM_frame (fun kv : string * loc =>
                            y <- deepcopy fuel kv.2 ;; ret (kv.1, y)))
      with (l := refs) (h := h) as ([ys|e] & h1 & -> & Hp1).
    { intros a h0. unfold bind.
      destruct (IH a.2 h0) as ([y|e] & h' & -> & ? & _).
      - by exists (Ret (a.1, y)), h'.
      - by exists (Raise e), h'. }
    + exists (Ret (length h1)), (h1 ++ [ODict ys]). cbn. repeat split.
      * by apply prefix_app_r.
      * intros y [= <-]. right. by apply prefix_length.
    + exists (Raise e), h1. by repeat split.
  - exists (Raise SystemError), h. by repeat split.
Qed.

(** The loop over the excluded fields writes to the copy only. *)
Lemma remove_loop_frame (h : heap) (y : loc) keys :
  (exists a, h !! y = Some (OAtom a)) \/ length h <= y ->
  forall h1 : heap, h `prefix_of` h1 ->
  exists r h2,
    for_each keys (fun key =>
      present <- py_in key y ;;
      if present then py_delitem key y else ret tt) h1 = (r, h2, [])
    /\ h `prefix_of` h2.
Proof.
  intros Hy. induction keys as [|key keys IH]; intros h1 Hp.
  { exists (Ret tt), h1. done. }
  cbn [for_each]. unfold bind at 1.
  assert (Hstep : exists r h2,
            (present <- py_in key y ;;
             if present then py_delitem key y else ret tt) h1 = (r, h2, [])
            /\ h `prefix_of` h2).
  { unfold py_in, py_delitem, bind, load, get, store, ret, raise.
    destruct (h1 !! y) as [[a|refs|refs]|] eqn:Hcell.
    - destruct a as [|b|q|s]; cbn;
        try (eexists _, _; split; [reflexivity | exact Hp]).
      destruct (PyStr.contains key s); cbn; rewrite ?Hcell; cbn;
        eexists _, _; (split; [reflexivity | exact Hp]).
    - cbn. destruct (existsb _ refs); cbn; rewrite ?Hcell; cbn;
        eexists _, _; (split; [reflexivity | exact Hp]).
    - cbn. destruct (bool_decide (key ∈ refs.*1)); cbn.
      + rewrite Hcell. cbn. destruct (bool_decide (key ∈ refs.*1)); cbn;
          [|eexists _, _; split; [reflexivity | exact Hp]].
        eexists _, _. split; [reflexivity|].
        destruct Hy as [[a Ha]|Hy].
        * pose proof (prefix_lookup_Some _ _ _ _ Ha Hp) as Ha1.
          assert (Habs : Some (OAtom a) = Some (ODict refs))
            by (rewrite <- Ha1; exact Hcell).
          discriminate Habs.
        * destruct Hp as [k ->]. rewrite insert_app_r_alt by done.
          by apply prefix_app_r.
      + eexists _, _. split; [reflexivity | exact Hp].
    - cbn. eexists _, _. split; [reflexivity | exact Hp]. }
  destruct Hstep as ([[]|e] & h2 & -> & Hp2); [|by exists (Raise e), h2].
  destruct (IH h2 Hp2) as (r & h3 & -> & Hp3). by exists r, h3.
Qed.

Lemma normalize_frame (fuel : nat) (info : loc) (h : heap) :
  exists r h',
    _normalize_data_to_send fuel info h = (r, h', []) /\ h `prefix_of` h'.
Proof.
  unfold _normalize_data_to_send. unfold bind at 1.
  destruct (deepcopy_frame fuel info h) as ([y|e] & h1 & -> & Hp1 & Hy);
    [|by exists (Raise e), h1].
  unfold bind at 1.
  destruct (remove_loop_frame h y excluded_fields (Hy y eq_refl) h1 Hp1)
    as ([[]|e] & h2 & -> & Hp2).
  - by exists (Ret y), h2.
  - by exists (Raise e), h2.
Qed.

(** X11: on every input, a [dict] or not, well formed or not, and whether
    it returns or raises, [_normalize_data_to_send] prints nothing, posts
    nothing and leaves every cell of the caller's heap as it was. *)
Theorem normalize_never_touches_input (fuel : nat) (info : loc) (h : heap) :
  exists r h',
    _normalize_data_to_send fuel info h = (r, h', [])
    /\ h `prefix_of` h'
    /\ forall x o, h !! x = Some o -> h' !! x = Some o.
Proof.
  destruct (normalize_frame fuel info h) as (r & h' & Hrun & Hp). exists r, h'.
  split; [exact Hrun|]. split; [exact Hp|].
  intros x o Hx. by eapply prefix_lookup_Some.
Qed.

Lemma mapM_pure {A B} (f : A -> M heap B) (h : heap) :
  (forall a, exists r, f a h = (r, h, [])) ->
  forall l, exists r, mapM f l h = (r, h, []).
Proof.
  intros Hf. induction l as [|a l [rs IH]].
  - by exists (Ret []).
  - cbn [mapM]. unfold bind at 1. destruct (Hf a) as [[b|e] ->]; [|by exists (Raise e)].
    unfold bind at 1. rewrite IH. destruct rs as [bs|e].
    + by exists (Ret (b :: bs)).
    + by exists (Raise e).
Qed.

(** [json_dumps] reads only. *)
Lemma json_dumps_pure fuel : forall x (h : heap),
  exists r, json_dumps fuel x h = (r, h, []).
Proof.
  induction fuel as [|fuel IH]; intros x h; [by exists (Raise RecursionError)|].
  cbn [json_dumps]. unfold bind at 1, load.
  destruct (h !! x) as [[a|refs|refs]|].
  - by exists (Ret (VAtom a)).
  - unfold bind.
    destruct (mapM_pure (json_dumps fuel) h (fun a => IH a h) refs) as [[vs|e] ->].
    + by exists (Ret (VList vs)).
    + by exists (Raise e).
  - unfold bind at 1.
    destruct (mapM_pure (fun kv : string * loc =>
                           v <- json_dumps fuel kv.2 ;; ret (kv.1, v)) h) with (l := refs)
      as [[vs|e] ->].
    { intros a. unfold bind. destruct (IH a.2 h) as [[v|e] ->].
      - by exists (Ret (a.1, v)).
      - by exists (Raise e). }
    + by exists (Ret (VDict vs)).
    + by exists (Raise e).
  - by exists (Raise SystemError).
Qed.

(** [send_to_backend] once the payload is sanitized and written out: one
    request, then the classification of the response. *)
Lemma send_to_backend_tail (rp : transport) fuel url key info_type info
    (h h1 : heap) data body :
  _normalize_data_to_send fuel info h = (Ret data, h1, []) ->
  json_dumps fuel data h1 = (Ret body, h1, []) ->
  send_to_backend rp fuel url key info_type info h
  = match rp (update_request url key info_type body) with
    | Raise e => (Raise e, h1, [EPost (update_request url key info_type body)])
    | Ret r => ((response_result r).1, h1,
                EPost (update_request url key info_type body) :: (response_result r).2)
    end.
Proof.
  intros Hnorm Hdump.
  unfold send_to_backend, def. unfold then_ at 1, run at 1.
  unfold bind at 1. unfold bind at 1. unfold bind at 1. rewrite Hnorm. cbn.
  unfold then_ at 1, run at 1.
  unfold bind at 1. unfold bind at 1. rewrite Hdump. cbn.
  unfold then_ at 1, run at 1, post.
  unfold bind at 1. unfold bind at 1. unfold bind at 1. unfold emit. cbn.
  unfold lift_result, update_request, response_result.
  destruct (rp _) as [r|e]; cbn; [|reflexivity].
  destruct (ok r); cbn; [reflexivity|].
  destruct (json r) as [parsed|e]; [|by destruct e].
  cbn. unfold then_, run, bind, lift_result. cbn.
  destruct (py_getitem parsed "status") as [st|e]; cbn; [|reflexivity].
  by destruct (py_eq_str st "Unauthorized").
Qed.

(** Every run of [send_to_backend]: it stops before any request, or makes
    one request and goes by the transport's answer. *)
Lemma send_to_backend_cases (rp : transport) fuel url key info_type info (h : heap) :
  exists h', h `prefix_of` h'
    /\ ((exists e, send_to_backend rp fuel url key info_type info h = (Raise e, h', []))
        \/ exists body,
             send_to_backend rp fuel url key info_type info h
             = match rp (update_request url key info_type body) with
               | Raise e => (Raise e, h', [EPost (update_request url key info_type body)])
               | Ret r => ((response_result r).1, h',
                           EPost (update_request url key info_type body)
                           :: (response_result r).2)
               end).
Proof.
  destruct (normalize_frame fuel info h) as ([data|e] & h1 & Hnorm & Hp).
  - destruct (json_dumps_pure fuel data h1) as [[body|e] Hdump].
    + exists h1. split; [exact Hp|]. right. exists body.
      by apply send_to_backend_tail with (data := data).
    + exists h1. split; [exact Hp|]. left. exists e.
      unfold send_to_backend, def. unfold then_ at 1, run at 1.
      unfold bind at 1. unfold bind at 1. unfold bind at 1. rewrite Hnorm. cbn.
      unfold then_ at 1, run at 1.
      unfold bind at 1. unfold bind at 1. by rewrite Hdump.
  - exists h1. split; [exact Hp|]. left. exists e.
    unfold send_to_backend, def. unfold then_ at 1, run at 1.
    unfold bind at 1. unfold bind at 1. unfold bind at 1. by rewrite Hnorm.
Qed.

Lemma response_result_shape (r : response) :
  match (response_result r).1 with
  | Ret v =>
      (v = AStr OK /\ (response_result r).2 = [])
      \/ (exists msg, (v = AStr AUTH_ERROR \/ v = AStr CONNECT_ERROR \/ v = AStr UPLOAD_ERROR)
                      /\ (response_result r).2 = [EWarning msg])
  | Raise _ => (response_result r).2 = []
  end.
Proof.
  unfold response_result. destruct (ok r); [by left|].
  destruct (json r) as [parsed|e].
  - destruct (py_getitem parsed "status") as [st|e]; [|done].
    destruct (py_eq_str st "Unauthorized"); right; eexists; split; eauto.
  - destruct e; try done. right. eexists. split; eauto.
Qed.

(** X12: on every input and with every transport, [send_to_backend] leaves
    every cell of the caller's heap as it was and makes at most one request
    (it never retries); whatever else it emits is a warning. *)
Theorem send_to_backend_single_request (rp : transport) (fuel : nat) (url : string)
    (key : option string) (info_type : string) (info : loc) (h : heap) :
  exists r h' evs,
    send_to_backend rp fuel url key info_type info h = (r, h', evs)
    /\ (forall x o, h !! x = Some o -> h' !! x = Some o)
    /\ length (filter (fun ev => is_post ev = true) evs) <= 1
    /\ Forall (fun ev => is_post ev = true \/ is_warning ev = true) evs.
Proof.
  destruct (send_to_backend_cases rp fuel url key info_type info h)
    as (h' & Hp & [[e Hrun]|[body Hrun]]).
  - exists (Raise e), h', []. split; [exact Hrun|].
    split; [intros x o Hx; by eapply prefix_lookup_Some|]. split; [cbn; lia|constructor].
  - destruct (rp _) as [r|e].
    + exists (response_result r).1, h', (EPost (update_request url key info_type body)
                                         :: (response_result r).2).
      split; [exact Hrun|].
      split; [intros x o Hx; by eapply prefix_lookup_Some|].
      pose proof (response_result_shape r) as Hshape.
      destruct (response_result r).1 as [v|e'].
      * destruct Hshape as [[_ ->]|(msg & _ & ->)];
          (split; [vm_compute; lia|]); repeat (apply Forall_cons_2; [first [by left | by right]|]); apply Forall_nil_2.
      * rewrite Hshape. split; [vm_compute; lia|]. repeat (apply Forall_cons_2; [first [by left | by right]|]); apply Forall_nil_2.
    + exists (Raise e), h', [EPost (update_request url key info_type body)].
      split; [exact Hrun|].
      split; [intros x o Hx; by eapply prefix_lookup_Some|].
      split; [vm_compute; lia|]. repeat (apply Forall_cons_2; [first [by left | by right]|]); apply Forall_nil_2.
Qed.

(** X13: a run of [send_to_backend] prints exactly one warning when it
    returns a failure outcome, and none when it returns [OK] or raises. *)
Theorem send_to_backend_warns_on_failure (rp : transport) (fuel : nat) (url : string)
    (key : option string) (info_type : string) (info : loc) (h h' : heap)
    (r : result atom) (evs : list event) :
  send_to_backend rp fuel url key info_type info h = (r, h', evs) ->
  length (filter (fun ev => is_warning ev = true) evs)
  = match r with
    | Ret (AStr outcome) => if String.eqb outcome OK then 0 else 1
    | Ret _ => 1
    | Raise _ => 0
    end.
Proof.
  destruct (send_to_backend_cases rp fuel url key info_type info h)
    as (h1 & Hp & [[e Hrun]|[body Hrun]]); rewrite Hrun.
  - by intros [= <- _ <-].
  - destruct (rp _) as [resp|e]; [|by intros [= <- _ <-]].
    pose proof (response_result_shape resp) as Hshape.
    intros [= <- _ <-].
    destruct (response_result resp).1 as [v|e'].
    + destruct Hshape as [[-> ->]|(msg & Hv & ->)]; [done|].
      by destruct Hv as [-> | [-> | ->]].
    + by rewrite Hshape.
Qed.

Lemma send_to_backend_warns_on_failure_witness :
  exists h' evs,
    send_to_backend (fun _ => Ret failure_not_json) 5 "https://host/api/v1/update"
      (Some "key") "status" sample_payload.2 sample_payload.1
    = (Ret (AStr CONNECT_ERROR), h', evs)
    /\ length (filter (fun ev => is_warning ev = true) evs) = 1.
Proof.
  eexists _, _.
  assert (Hrun : send_to_backend (fun _ => Ret failure_not_json) 5
            "https://host/api/v1/update" (Some "key") "status"
            sample_payload.2 sample_payload.1
          = (Ret (AStr CONNECT_ERROR), _, _)) by (vm_compute; reflexivity).
  split; [exact Hrun|].
  exact (send_to_backend_warns_on_failure _ _ _ _ _ _ _ _ _ _ Hrun).
Defined.

Lemma depth_without_excluded items fuel :
  depth (VDict items) <= fuel -> depth (VDict (without_excluded items)) <= fuel.
Proof.
  intros Hd. etrans; [|exact Hd]. cbn [depth]. apply le_n_S.
  apply list_max_le. apply List.Forall_map.
  apply Forall_forall. intros kv [_ Hkv]%list_elem_of_filter.
  assert (Hall : Forall (fun k => k <= list_max (map (fun kv => depth kv.2) items))
                   (map (fun kv => depth kv.2) items)) by by apply list_max_le.
  apply List.Forall_map in Hall. rewrite Forall_forall in Hall. by apply Hall.
Qed.

(** [send_to_backend] on a [dict] payload with enough fuel always gets to
    its request, which carries the payload without the excluded fields. *)
Lemma send_to_backend_dict (rp : transport) fuel url key info_type info (h : heap)
    (items : list (string * pyval)) :
  depth (VDict items) <= fuel ->
  repr 0 h info (VDict items) ->
  exists h', h `prefix_of` h'
    /\ send_to_backend rp fuel url key info_type info h
       = match rp (update_request url key info_type (VDict (without_excluded items))) with
         | Raise e =>
             (Raise e, h',
              [EPost (update_request url key info_type (VDict (without_excluded items)))])
         | Ret r =>
             ((response_result r).1, h',
              EPost (update_request url key info_type (VDict (without_excluded items)))
              :: (response_result r).2)
         end.
Proof.
  intros Hd Hx.
  destruct (normalize_dict_run fuel h info items Hd Hx)
    as (copy & h' & Hrun & Hcopy & Hpre).
  pose proof (json_dumps_spec fuel _ _ _ _ (depth_without_excluded _ _ Hd) Hcopy) as Hdump.
  exists h'. split; [exact Hpre|].
  by apply send_to_backend_tail with (data := copy).
Qed.

(** X14: when the transport raises (the service cannot be reached),
    [send_to_backend] raises the same exception after its one request: it
    does not return [CONNECT_ERROR] and prints no warning. *)
Theorem send_to_backend_transport_error_escapes (rp : transport) (fuel : nat)
    (url : string) (key : option string) (info_type : string) (info : loc) (h : heap)
    (items : list (string * pyval)) (e : exn) :
  depth (VDict items) <= fuel ->
  repr 0 h info (VDict items) ->
  rp (update_request url key info_type (VDict (without_excluded items))) = Raise e ->
  exists h',
    send_to_backend rp fuel url key info_type info h
    = (Raise e, h',
       [EPost (update_request url key info_type (VDict (without_excluded items)))]).
Proof.
  intros Hd Hx Hrp.
  destruct (send_to_backend_dict rp fuel url key info_type info h items Hd Hx)
    as (h' & _ & Hrun).
  exists h'. by rewrite Hrun, Hrp.
Qed.

Lemma send_to_backend_transport_error_escapes_witness :
  exists h',
    send_to_backend unreachable 5 "https://host/api/v1/update" (Some "key") "results"
      sample_payload.2 sample_payload.1
    = (Raise (OtherError "ConnectionError"), h',
       [EPost (update_request "https://host/api/v1/update" (Some "key") "results"
                 (VDict [("score", VAtom (ANum 1))]))]).
Proof.
  apply (send_to_backend_transport_error_escapes unreachable 5
           "https://host/api/v1/update" (Some "key") "results"
           sample_payload.2 sample_payload.1
           [("model_config", VAtom (AStr "cfg")); ("score", VAtom (ANum 1))]).
  - vm_compute. lia.
  - eapply repr_dict; [reflexivity | lia |]. repeat constructor.
  - reflexivity.
Defined.

(** X15: what [send_to_backend] sends and returns does not depend on the
    excluded fields: two [dict] payloads that agree once ['model_config']
    and ['epoch_history'] are left out give the same requests, the same
    warnings and the same result. *)
Theorem send_to_backend_hides_excluded_fields (rp : transport) (fuel : nat)
    (url : string) (key : option string) (info_type : string)
    (info1 info2 : loc) (h1 h2 : heap) (items1 items2 : list (string * pyval)) :
  depth (VDict items1) <= fuel -> repr 0 h1 info1 (VDict items1) ->
  depth (VDict items2) <= fuel -> repr 0 h2 info2 (VDict items2) ->
  without_excluded items1 = without_excluded items2 ->
  (send_to_backend rp fuel url key info_type info1 h1).1.1
  = (send_to_backend rp fuel url key info_type info2 h2).1.1
  /\ (send_to_backend rp fuel url key info_type info1 h1).2
     = (send_to_backend rp fuel url key info_type info2 h2).2.
Proof.
  intros Hd1 Hx1 Hd2 Hx2 Heq.
  destruct (send_to_backend_dict rp fuel url key info_type info1 h1 items1 Hd1 Hx1)
    as (h1' & _ & ->).
  destruct (send_to_backend_dict rp fuel url key info_type info2 h2 items2 Hd2 Hx2)
    as (h2' & _ & ->).
  rewrite Heq. by destruct (rp _).
Qed.

Lemma send_to_backend_hides_excluded_fields_witness :
  (send_to_backend (fun _ => Ret success) 5 "https://host/api/v1/update" (Some "key")
     "results" sample_payload.2 sample_payload.1).2
  = (send_to_backend (fun _ => Ret success) 5 "https://host/api/v1/update" (Some "key")
       "results" 1 [OAtom (ANum 1); ODict [("score", 0)]]).2.
Proof.
  apply (send_to_backend_hides_excluded_fields (fun _ => Ret success) 5
           "https://host/api/v1/update" (Some "key") "results"
           sample_payload.2 1 sample_payload.1 [OAtom (ANum 1); ODict [("score", 0)]]
           [("model_config", VAtom (AStr "cfg")); ("score", VAtom (ANum 1))]
           [("score", VAtom (ANum 1))]).
  - vm_compute. lia.
  - eapply repr_dict; [reflexivity | lia |]. repeat constructor.
  - vm_compute. lia.
  - eapply repr_dict; [reflexivity | lia |]. repeat constructor.
  - reflexivity.
Defined.

(** ** [_send_blocking] and [complete] *)

Lemma send_blocking_run (rp : transport) fuel info_type (info : payload)
    (self : CloudService) :
  _send_blocking rp fuel info_type info self
  = if enabled self
    then match send_to_backend rp fuel (_url_join [base_url self; "v1/update"])
                 (api_key self) info_type info.2 info.1 with
         | (Ret v, _, evs) => (Ret ANone, set_status v self, evs)
         | (Raise e, _, evs) => (Raise e, self, evs)
         end
    else (Ret (AStr "disabled"), self, []).
Proof.
  unfold _send_blocking, def, then_, run, bind, get, return_, pass, ret, on_heap, modify.
  cbn beta iota. destruct (enabled self); [|reflexivity]. cbn.
  destruct (send_to_backend _ _ _ _ _ _ _) as [[[v|e] h'] evs]; cbn;
    by rewrite ?app_nil_r.
Qed.

Lemma send_to_backend_returns_outcome (rp : transport) fuel url key info_type info
    (h h' : heap) v evs :
  send_to_backend rp fuel url key info_type info h = (Ret v, h', evs) ->
  v = AStr OK \/ v = AStr AUTH_ERROR \/ v = AStr CONNECT_ERROR \/ v = AStr UPLOAD_ERROR.
Proof.
  destruct (send_to_backend_cases rp fuel url key info_type info h)
    as (h1 & _ & [[e ->]|[body ->]]); [discriminate|].
  destruct (rp _) as [r|e]; [|discriminate].
  pose proof (response_result_shape r) as Hshape.
  destruct (response_result r).1 as [v'|e]; [|discriminate].
  intros [= <- _ _]. destruct Hshape as [[-> _]|(msg & Hv & _)]; tauto.
Qed.

(** X16: [_send_blocking] on a client that is not enabled returns
    ['disabled'] and does nothing. On an enabled client it either returns
    [None] with [status] set to one of the four outcomes of
    [send_to_backend] and every other field as before, or raises with the
    client as before; it never queues a work item. *)
Theorem send_blocking_records_outcome (rp : transport) (fuel : nat)
    (info_type : string) (info : payload) (self : CloudService) :
  (enabled self = false ->
     _send_blocking rp fuel info_type info self = (Ret (AStr "disabled"), self, []))
  /\ (enabled self = true ->
      forall r self' evs,
        _send_blocking rp fuel info_type info self = (r, self', evs) ->
        (r = Ret ANone
         /\ exists outcome,
              (outcome = OK \/ outcome = AUTH_ERROR \/ outcome = CONNECT_ERROR
               \/ outcome = UPLOAD_ERROR)
              /\ self' = set_status (AStr outcome) self)
        \/ (exists e, r = Raise e /\ self' = self)).
Proof.
  split; intros Hen; rewrite send_blocking_run, Hen; [reflexivity|].
  intros r self' evs.
  destruct (send_to_backend _ _ _ _ _ _ _) as [[[v|e] h'] evs'] eqn:Hrun.
  - intros [= <- <- <-]. left. split; [done|].
    destruct (send_to_backend_returns_outcome _ _ _ _ _ _ _ _ _ _ Hrun)
      as [-> | [-> | [-> | ->]]];
      [exists OK | exists AUTH_ERROR | exists CONNECT_ERROR | exists UPLOAD_ERROR];
      (split; [tauto | reflexivity]).
  - intros [= <- <- <-]. right. by exists e.
Qed.

Lemma send_blocking_records_outcome_witness :
  enabled __init__ = false /\ enabled enabled_client = true
  /\ (_send_blocking (fun _ => Ret failure_not_json) 5 "results" sample_payload
        __init__).1.1 = Ret (AStr "disabled")
  /\ exists outcome,
       (_send_blocking (fun _ => Ret failure_not_json) 5 "results" sample_payload
          enabled_client).1.2 = set_status (AStr outcome) enabled_client.
Proof.
  assert (H0 : enabled __init__ = false) by reflexivity.
  assert (H1 : enabled enabled_client = true) by reflexivity.
  destruct (send_blocking_records_outcome (fun _ => Ret failure_not_json) 5 "results"
              sample_payload __init__) as [Hoff _].
  destruct (send_blocking_records_outcome (fun _ => Ret failure_not_json) 5 "results"
              sample_payload enabled_client) as [_ Hon].
  split; [exact H0|]. split; [exact H1|]. split.
  - by rewrite (Hoff H0).
  - set (run := _send_blocking (fun _ => Ret failure_not_json) 5 "results"
                  sample_payload enabled_client).
    assert (Hrun : run = (run.1.1, run.1.2, run.2)) by (by destruct run as [[? ?] ?]).
    destruct (Hon H1 _ _ _ Hrun) as [[_ (outcome & _ & Hs)]|(e & He & _)].
    + exists outcome. exact Hs.
    + vm_compute in He. discriminate He.
Defined.

(** X17: a blocking send of a [dict] payload on an enabled client posts the
    payload without the excluded fields to [v1/update] under the base URL,
    with the stored key; when the response is classified, [status] becomes
    that outcome and [None] is returned. *)
Theorem send_blocking_posts_sanitized (rp : transport) (fuel : nat)
    (info_type : string) (info : payload) (self : CloudService)
    (items : list (string * pyval)) (r : response) (outcome : atom) :
  enabled self = true ->
  depth (VDict items) <= fuel ->
  repr 0 info.1 info.2 (VDict items) ->
  rp (update_request (_url_join [base_url self; "v1/update"]) (api_key self) info_type
        (VDict (without_excluded items))) = Ret r ->
  (response_result r).1 = Ret outcome ->
  _send_blocking rp fuel info_type info self
  = (Ret ANone, set_status outcome self,
     EPost (update_request (_url_join [base_url self; "v1/update"]) (api_key self)
              info_type (VDict (without_excluded items)))
     :: (response_result r).2).
Proof.
  intros Hen Hd Hx Hrp Hout. rewrite send_blocking_run, Hen.
  destruct (send_to_backend_dict rp fuel (_url_join [base_url self; "v1/update"])
              (api_key self) info_type info.2 info.1 items Hd Hx) as (h' & _ & ->).
  by rewrite Hrp, Hout.
Qed.

Lemma send_blocking_posts_sanitized_witness :
  _send_blocking (fun _ => Ret (failure_with "status" "Unauthorized")) 5 "results"
    sample_payload enabled_client
  = (Ret ANone, set_status (AStr AUTH_ERROR) enabled_client,
     [EPost (update_request
               "https://us-central1-kerastuner-prod.cloudfunctions.net/api/v1/update"
               (Some "test_key_true") "results" (VDict [("score", VAtom (ANum 1))]));
      EWarning "Invalid backend API key."]).
Proof.
  apply (send_blocking_posts_sanitized (fun _ => Ret (failure_with "status" "Unauthorized"))
           5 "results" sample_payload enabled_client
           [("model_config", VAtom (AStr "cfg")); ("score", VAtom (ANum 1))]
           (failure_with "status" "Unauthorized") (AStr AUTH_ERROR)).
  - reflexivity.
  - vm_compute. lia.
  - eapply repr_dict; [reflexivity | lia |]. repeat constructor.
  - reflexivity.
  - reflexivity.
Defined.

(** X18: [complete] replaces the pool and nothing else: the debounce clock
    is not reset, so a status call within the interval of the last dispatch
    is still dropped afterwards, and on an enabled client the next results
    call is the only item of the new pool. *)
Theorem complete_keeps_debounce (info : payload) (ts : Q) (self : CloudService) :
  let drained := set_executor [] self in
  complete self = (Ret ANone, drained, [])
  /\ ((ts - last_update self <= log_interval self)%Q ->
        (complete ;; send_status info ts) self = (Ret ANone, drained, []))
  /\ (enabled self = true ->
        (complete ;; send_results info) self
        = (Ret ANone, set_executor [update_task self "results" info] self, [])).
Proof.
  cbn zeta. split; [reflexivity|]. split.
  - intros Hgate. unfold bind at 1. change (complete self) with
      (Ret ANone, set_executor [] self, @nil event). cbn beta iota.
    by rewrite send_status_debounced.
  - intros Hen. unfold bind at 1. change (complete self) with
      (Ret ANone, set_executor [] self, @nil event). cbn beta iota.
    rewrite send_results_run. cbn [enabled set_executor]. by rewrite Hen.
Qed.

Lemma complete_keeps_debounce_witness :
  (102 - last_update reported_client <= log_interval reported_client)%Q
  /\ enabled reported_client = true
  /\ executor ((complete ;; send_status sample_payload 102) reported_client).1.2 = []
  /\ executor ((complete ;; send_results sample_payload) reported_client).1.2
     = [update_task reported_client "results" sample_payload].
Proof.
  assert (Hgate : (102 - last_update reported_client <= log_interval reported_client)%Q)
    by (vm_compute; discriminate).
  assert (Hen : enabled reported_client = true) by reflexivity.
  destruct (complete_keeps_debounce sample_payload 102 reported_client)
    as (_ & Hst & Hres).
  split; [exact Hgate|]. split; [exact Hen|]. split.
  - by rewrite (Hst Hgate).
  - by rewrite (Hres Hen).
Defined.

(** ** More on [_normalize_data_to_send] *)

Lemma without_excluded_idempotent (items : list (string * pyval)) :
  without_excluded (without_excluded items) = without_excluded items.
Proof. unfold without_excluded. by apply list_filter_filter_l. Qed.

(** X19: sanitizing a sanitized payload changes nothing more: the second
    copy reads as the first one, which is left as it was. *)
Theorem normalize_twice (fuel : nat) (h : heap) (info : loc)
    (items : list (string * pyval)) :
  depth (VDict items) <= fuel ->
  repr 0 h info (VDict items) ->
  exists copy1 h1 copy2 h2,
    _normalize_data_to_send fuel info h = (Ret copy1, h1, [])
    /\ _normalize_data_to_send fuel copy1 h1 = (Ret copy2, h2, [])
    /\ repr (length h1) h2 copy2 (VDict (without_excluded items))
    /\ repr (length h) h2 copy1 (VDict (without_excluded items)).
Proof.
  intros Hd Hx.
  destruct (normalize_dict_run fuel h info items Hd Hx)
    as (copy1 & h1 & Hrun1 & Hcopy1 & Hpre1).
  assert (Hcopy1' : repr 0 h1 copy1 (VDict (without_excluded items)))
    by (eapply repr_mono; [lia | reflexivity | exact Hcopy1]).
  destruct (normalize_dict_run fuel h1 copy1 (without_excluded items)
              (depth_without_excluded _ _ Hd) Hcopy1')
    as (copy2 & h2 & Hrun2 & Hcopy2 & Hpre2).
  rewrite without_excluded_idempotent in Hcopy2.
  exists copy1, h1, copy2, h2. repeat split; try done.
  eapply repr_mono; [reflexivity | exact Hpre2 | exact Hcopy1].
Qed.

Lemma normalize_twice_witness :
  exists copy1 h1 copy2 h2,
    _normalize_data_to_send 5 sample_payload.2 sample_payload.1 = (Ret copy1, h1, [])
    /\ _normalize_data_to_send 5 copy1 h1 = (Ret copy2, h2, [])
    /\ repr (length h1) h2 copy2 (VDict [("score", VAtom (ANum 1))]).
Proof.
  destruct (normalize_twice 5 sample_payload.1 sample_payload.2
              [("model_config", VAtom (AStr "cfg")); ("score", VAtom (ANum 1))])
    as (copy1 & h1 & copy2 & h2 & H1 & H2 & H3 & _).
  - vm_compute. lia.
  - eapply repr_dict; [reflexivity | lia |]. repeat constructor.
  - exists copy1, h1, copy2, h2. split; [exact H1|]. split; [exact H2 | exact H3].
Defined.

(** X20: a payload that is not a container is not copied: [None], a
    boolean and a number raise [TypeError] at the first [in] test; a string
    comes back as the same object unless it contains one of the two field
    names, in which case the [del] raises [TypeError]. The heap is as
    before in every case. *)
Theorem normalize_atom_payload (fuel : nat) (h : heap) (info : loc) (a : atom) :
  h !! info = Some (OAtom a) ->
  _normalize_data_to_send (S fuel) info h
  = match a with
    | AStr s =>
        if PyStr.contains "model_config" s || PyStr.contains "epoch_history" s
        then (Raise TypeError, h, [])
        else (Ret info, h, [])
    | _ => (Raise TypeError, h, [])
    end.
Proof.
  intros Hcell.
  unfold _normalize_data_to_send, excluded_fields. cbn [deepcopy for_each].
  unfold py_in, py_delitem, bind, load, ret, raise. rewrite Hcell.
  destruct a as [|b|q|s]; cbn; rewrite ?Hcell; cbn; try reflexivity.
  destruct (PyStr.contains "model_config" s); cbn; rewrite ?Hcell; cbn;
    [reflexivity|].
  destruct (PyStr.contains "epoch_history" s); cbn; rewrite ?Hcell; reflexivity.
Qed.

Lemma normalize_atom_payload_witness :
  _normalize_data_to_send 1 0 [OAtom (AStr "no model_config here")]
  = (Raise TypeError, [OAtom (AStr "no model_config here")], [])
  /\ _normalize_data_to_send 1 0 [OAtom (AStr "done")]
     = (Ret 0, [OAtom (AStr "done")], []).
Proof.
  split.
  - by rewrite (normalize_atom_payload 0 _ 0 (AStr "no model_config here")).
  - by rewrite (normalize_atom_payload 0 _ 0 (AStr "done")).
Defined.

(** ** [enable] followed by reports *)

(** X21: after [enable] has returned with the client enabled, every
    [send_results] call queues a work item addressed to [v1/update] under
    the effective base URL and carrying the key that was passed. *)
Theorem enabled_reports_use_key_and_url (rp : transport) (key : string)
    (url : option string) (self self' : CloudService) (v : atom) (evs : list event)
    (info : payload) :
  enable rp key url self = (Ret v, self', evs) ->
  enabled self' = true ->
  send_results info self'
  = (Ret ANone,
     set_executor
       (executor self
        ++ [{| task_url := _url_join [effective_base url self; "v1/update"];
               task_api_key := Some key;
               task_info_type := "results";
               task_info := info |}]) self', []).
Proof.
  intros Hrun Hen. rewrite send_results_run, Hen.
  revert Hrun. rewrite enable_run, check_access_run.
  repeat case_decide;
    try (destruct (rp _) as [r|e]; [destruct (ok r)|]);
    intros [= <- <- <-]; try discriminate Hen; reflexivity.
Qed.

Lemma enabled_reports_use_key_and_url_witness :
  exists self' evs,
    enable (fun _ => Ret success) "user-key" (Some "https://host/api/") __init__
    = (Ret ANone, self', evs)
    /\ enabled self' = true
    /\ executor (send_results sample_payload self').1.2
       = [{| task_url := "https://host/api/v1/update";
             task_api_key := Some "user-key";
             task_info_type := "results";
             task_info := sample_payload |}].
Proof.
  eexists _, _.
  assert (Hrun : enable (fun _ => Ret success) "user-key" (Some "https://host/api/") __init__
                 = (Ret ANone, _, _)) by reflexivity.
  assert (Hen : enabled (enable (fun _ => Ret success) "user-key"
                           (Some "https://host/api/") __init__).1.2 = true) by reflexivity.
  split; [exact Hrun|]. split; [exact Hen|].
  by rewrite (enabled_reports_use_key_and_url _ _ _ _ _ _ _ sample_payload Hrun Hen).
Defined.
